(** * SAUWA discount codes: store, validation client and error classifier

    A shallow embedding of the discount-code core of the sauwasauna front end
    (the nanostores discount store, [validateDiscountCode.ts] and the error
    taxonomy of [discount-errors.ts]) together with the properties that the
    design document states about it.

    Conventions of the embedding.
    - A JavaScript [number] that carries money is an exact rational ([Q])
      wherever a property is stated in exact arithmetic; [NaN] and the
      infinities are outside that model.  The calculation of the store is
      embedded a second time over IEEE-754 doubles (module [Binary64]), where
      the rounding of doubles decides what the code returns.  Usage counters
      and time values are integers ([Z]).
    - A JavaScript string is a [string] of bytes.
    - A nanostores atom is a field of the record [Store]; every action is a
      function from [Store] to [Store].
    - Built-ins of the JavaScript runtime that the source calls
      ([String.prototype.trim], [toUpperCase], [JSON.parse], [Date]) are the
      fields of the class [Runtime]; the clock ([new Date()]) is an explicit
      argument [now], in milliseconds since the epoch.
    - An exception is a value of [Completion]; [try]/[catch] is [tryCatch]. *)

From Stdlib Require Import ZArith QArith Qround Qminmax Lqa Lia.
From Stdlib Require Import Bool List String Ascii.
From Stdlib Require Import Floats Uint63.
Import ListNotations.

Local Open Scope string_scope.
Local Open Scope Z_scope.

#[local] Set Warnings "-register-all".
#[local] Set Warnings "-inexact-float".

(* ================================================================= *)
(** ** JavaScript values and completions *)

(** What [JSON.parse] can return, plus [undefined] (a missing property). *)
Inductive JsValue : Type :=
| JUndefined : JsValue
| JNull : JsValue
| JBool : bool -> JsValue
| JNum : Q -> JsValue
| JStr : string -> JsValue
| JArr : list JsValue -> JsValue
| JObj : list (string * JsValue) -> JsValue.

(** A thrown value: an [Error] instance with its [name] and [message], or
    any other value ([error instanceof Error] is false for it). *)
Inductive Thrown : Type :=
| ThrownError (name message : string)
| ThrownValue (v : JsValue).

Inductive Completion (A : Type) : Type :=
| Normal (a : A)
| Throw (e : Thrown).
Arguments Normal {A} a.
Arguments Throw {A} e.

Definition bindC {A B} (c : Completion A) (k : A -> Completion B) : Completion B :=
  match c with
  | Normal a => k a
  | Throw e => Throw e
  end.

Notation "x <- c ;; k" := (bindC c (fun x => k))
  (at level 61, c at next level, right associativity).

(** [try { body } catch { handler }] where the handler ignores the error. *)
Definition tryCatch {A} (body : Completion A) (handler : Thrown -> Completion A)
  : Completion A :=
  match body with
  | Normal a => Normal a
  | Throw e => handler e
  end.

(** ToBoolean. *)
Definition truthy (v : JsValue) : bool :=
  match v with
  | JUndefined | JNull => false
  | JBool b => b
  | JNum q => negb (Qeq_bool q 0)
  | JStr s => negb (s =? "")%string
  | JArr _ | JObj _ => true
  end.

Fixpoint lookupField (fields : list (string * JsValue)) (key : string) : JsValue :=
  match fields with
  | [] => JUndefined
  | (k, v) :: rest => if (k =? key)%string then v else lookupField rest key
  end.

(** [v.key] for the two keys the store reads ([status], [validUntil]), which
    no prototype defines: an own property of an object, [undefined] on any
    other value, and a [TypeError] on [null] and [undefined]. *)
Definition getProp (v : JsValue) (key : string) : Completion JsValue :=
  match v with
  | JUndefined | JNull =>
      Throw (ThrownError "TypeError" "Cannot read properties of null")
  | JObj fields => Normal (lookupField fields key)
  | _ => Normal JUndefined
  end.

(** [a === b] against a string literal. *)
Definition strictEqStr (v : JsValue) (lit : string) : bool :=
  match v with
  | JStr s => (s =? lit)%string
  | _ => false
  end.

(** The built-ins of the runtime.  [Date_parse s] is the time value of
    [new Date(s)], [None] for an Invalid Date; [Date_ofObject v] is the time
    value of [new Date(v)] for an array or an object, which goes through
    ToPrimitive and can throw.  The empty string is not a date. *)
Class Runtime : Type := {
  String_trim : string -> string;
  String_toUpperCase : string -> string;
  JSON_parse : string -> Completion JsValue;
  Date_parse : string -> option Z;
  Date_ofObject : JsValue -> Completion (option Z);
  Date_parse_empty : Date_parse "" = None
}.

(** TimeClip of a number: an integral number of milliseconds within
    8.64e15 of the epoch. *)
Definition TimeClip (q : Q) : option Z :=
  let t := Qnum q ÷ Zpos (Qden q) in
  if Z.abs t <=? 8640000000000000 then Some t else None.

(** The time value of [new Date(v)]. *)
Definition Date_new `{Runtime} (v : JsValue) : Completion (option Z) :=
  match v with
  | JUndefined => Normal None
  | JNull => Normal (Some 0)
  | JBool b => Normal (Some (if b then 1 else 0))
  | JNum q => Normal (TimeClip q)
  | JStr s => Normal (Date_parse s)
  | JArr _ | JObj _ => Date_ofObject v
  end.

(** [Math.round] in exact arithmetic: the nearest integer, a tie going up. *)
Definition Math_round (x : Q) : Q := inject_Z (Qfloor (x + (1 # 2))).

Definition Math_min (a b : Q) : Q := Qmin a b.

(* ================================================================= *)
(** ** types/discount.ts *)

Inductive DiscountType : Type := Percentage | Fixed.

Inductive DiscountStatus : Type := Active | Inactive | Expired.

Record Discount : Type := {
  code : string;
  type : DiscountType;
  amount : Q;
  validUntil : option string;
  maxUses : option Z;
  currentUses : Z;
  status : DiscountStatus
}.

Inductive DiscountState : Type := Idle | Validating | Valid | Error.

Record DiscountCalculation : Type := {
  originalPrice : Q;
  discountAmount : Q;
  finalPrice : Q;
  percentageApplied : Q
}.

(* ================================================================= *)
(** ** types/discount-errors.ts *)

Inductive DiscountErrorType : Type :=
| INVALID_CODE
| EXPIRED
| NO_USES_LEFT
| ALREADY_USED
| INACTIVE
| NETWORK_ERROR
| VALIDATION_ERROR.

(** The string a member of the union is at run time. *)
Definition errorTag (e : DiscountErrorType) : string :=
  match e with
  | INVALID_CODE => "INVALID_CODE"
  | EXPIRED => "EXPIRED"
  | NO_USES_LEFT => "NO_USES_LEFT"
  | ALREADY_USED => "ALREADY_USED"
  | INACTIVE => "INACTIVE"
  | NETWORK_ERROR => "NETWORK_ERROR"
  | VALIDATION_ERROR => "VALIDATION_ERROR"
  end.

(** [errorType === 'INVALID_CODE' || errorType === 'NETWORK_ERROR'], on the
    run-time string. *)
Definition isRecoverableError (errorType : string) : bool :=
  (errorType =? "INVALID_CODE")%string || (errorType =? "NETWORK_ERROR")%string.

(* ================================================================= *)
(** ** stores/discountStore.ts *)

(** The four atoms. *)
Record Store : Type := {
  discountCode : string;
  discountState : DiscountState;
  appliedDiscount : option Discount;
  discountError : option DiscountErrorType
}.

Definition initialStore : Store :=
  {| discountCode := ""; discountState := Idle;
     appliedDiscount := None; discountError := None |}.

Section DiscountStore.
Context `{Runtime}.

(** [isDiscountExpired]: the status first, then the date. *)
Definition isDiscountExpired (now : Z) (discount : Discount) : bool :=
  match status discount with
  | Expired | Inactive => true
  | Active =>
      match validUntil discount with
      | None => false
      | Some s =>
          if (s =? "")%string then false
          else match Date_parse s with
               | None => false
               | Some expirationDate => now >? expirationDate
               end
      end
  end.

(** Computed values: functions of the [appliedDiscount] atom. *)
Definition isDiscountApplied (st : Store) : bool :=
  match appliedDiscount st with Some _ => true | None => false end.

Definition discountPercentage (st : Store) : Q :=
  match appliedDiscount st with
  | None => 0%Q
  | Some discount =>
      match type discount with
      | Percentage => amount discount
      | Fixed => 0%Q
      end
  end.

Definition remainingUses (st : Store) : option Z :=
  match appliedDiscount st with
  | None => None
  | Some discount =>
      match maxUses discount with
      | None => None
      | Some m => if m =? 0 then None else Some (m - currentUses discount)
      end
  end.

Definition isOneTimeUse (st : Store) : bool :=
  match appliedDiscount st with
  | Some discount =>
      match maxUses discount with Some m => m =? 1 | None => false end
  | None => false
  end.

(** The body of the computed store that [calculateDiscountAmount] returns,
    in exact arithmetic; [Binary64.calculateDiscountAmount] is the same body
    on doubles. *)
Definition calculateDiscountAmount (sessionPrice : Q) (discount : option Discount)
  : DiscountCalculation :=
  match discount with
  | None =>
      {| originalPrice := sessionPrice; discountAmount := 0;
         finalPrice := sessionPrice; percentageApplied := 0 |}
  | Some discount =>
      let '(discountAmount, percentage) :=
        match type discount with
        | Percentage =>
            (Math_round ((sessionPrice * amount discount) / 100 * 100) / 100,
             amount discount)%Q
        | Fixed =>
            let discountAmount := Math_min (amount discount) sessionPrice in
            (discountAmount,
             if Qlt_le_dec 0 sessionPrice
             then Math_round ((discountAmount / sessionPrice) * 100)
             else 0)%Q
        end in
      let finalPrice := (Math_round ((sessionPrice - discountAmount) * 100) / 100)%Q in
      {| originalPrice := sessionPrice; discountAmount := discountAmount;
         finalPrice := finalPrice; percentageApplied := percentage |}
  end.

(** [getDiscountCalculation] in exact arithmetic, reading the atom
    [appliedDiscount] of the store. *)
Definition getDiscountCalculation (sessionPrice : Q) (st : Store)
  : DiscountCalculation :=
  match appliedDiscount st with
  | None =>
      {| originalPrice := sessionPrice; discountAmount := 0;
         finalPrice := sessionPrice; percentageApplied := 0 |}
  | Some discount =>
      let '(discountAmount, percentage) :=
        match type discount with
        | Percentage =>
            (Math_round ((sessionPrice * amount discount) / 100 * 100) / 100,
             amount discount)%Q
        | Fixed =>
            let discountAmount := Math_min (amount discount) sessionPrice in
            (discountAmount,
             if Qlt_le_dec 0 sessionPrice
             then Math_round ((discountAmount / sessionPrice) * 100)
             else 0)%Q
        end in
      let finalPrice := (Math_round ((sessionPrice - discountAmount) * 100) / 100)%Q in
      {| originalPrice := sessionPrice; discountAmount := discountAmount;
         finalPrice := finalPrice; percentageApplied := percentage |}
  end.

Definition sanitizeCode (code : string) : string :=
  String_toUpperCase (String_trim code).

(** Actions. *)
Definition setDiscountCode (code : string) (st : Store) : Store :=
  let sanitized := sanitizeCode code in
  let st1 := {| discountCode := sanitized;
                discountState := discountState st;
                appliedDiscount := appliedDiscount st;
                discountError := discountError st |} in
  match discountError st1 with
  | Some _ =>
      {| discountCode := discountCode st1;
         discountState := Idle;
         appliedDiscount := appliedDiscount st1;
         discountError := None |}
  | None => st1
  end.

Definition setValidating (st : Store) : Store :=
  {| discountCode := discountCode st;
     discountState := Validating;
     appliedDiscount := appliedDiscount st;
     discountError := None |}.

Definition setValid (discount : Discount) (st : Store) : Store :=
  {| discountCode := "";
     discountState := Valid;
     appliedDiscount := Some discount;
     discountError := None |}.

Definition setError (err : DiscountErrorType) (st : Store) : Store :=
  {| discountCode := discountCode st;
     discountState := Error;
     appliedDiscount := None;
     discountError := Some err |}.

Definition clearDiscount (st : Store) : Store :=
  {| discountCode := "";
     discountState := Idle;
     appliedDiscount := None;
     discountError := None |}.

Definition revalidateStoredDiscount (now : Z) (st : Store) : Store :=
  match appliedDiscount st with
  | Some stored => if isDiscountExpired now stored then clearDiscount st else st
  | None => st
  end.

Definition hasError (st : Store) : bool :=
  match discountState st, discountError st with
  | Error, Some _ => true
  | _, _ => false
  end.


(** [isDiscountExpired] as it runs on whatever [JSON.parse] returned: the
    cast [as Discount | null] checks nothing. *)
Definition isDiscountExpiredJs (now : Z) (discount : JsValue) : Completion bool :=
  st <- getProp discount "status" ;;
  if strictEqStr st "expired" || strictEqStr st "inactive" then Normal true
  else
    until <- getProp discount "validUntil" ;;
    if negb (truthy until) then Normal false
    else
      expirationDate <- Date_new until ;;
      Normal (match expirationDate with
              | None => false
              | Some t => now >? t
              end).

(** The [decode] option of the persistent atom [appliedDiscount]. *)
Definition decode (now : Z) (str : string) : Completion JsValue :=
  tryCatch
    (discount <- JSON_parse str ;;
     if truthy discount
     then (isExpired <- isDiscountExpiredJs now discount ;;
           if isExpired then Normal JNull else Normal discount)
     else Normal discount)
    (fun _ => Normal JNull).

End DiscountStore.

(** A [Discount] as the object [JSON.parse] builds for it. *)
Definition typeTag (t : DiscountType) : string :=
  match t with Percentage => "percentage" | Fixed => "fixed" end.

Definition statusTag (s : DiscountStatus) : string :=
  match s with Active => "active" | Inactive => "inactive" | Expired => "expired" end.

Definition optionToJs {A} (f : A -> JsValue) (o : option A) : JsValue :=
  match o with Some a => f a | None => JNull end.

Definition discountToJs (d : Discount) : JsValue :=
  JObj [ ("code", JStr (code d));
         ("type", JStr (typeTag (type d)));
         ("amount", JNum (amount d));
         ("validUntil", optionToJs JStr (validUntil d));
         ("maxUses", optionToJs (fun m => JNum (inject_Z m)) (maxUses d));
         ("currentUses", JNum (inject_Z (currentUses d)));
         ("status", JStr (statusTag (status d))) ].

(** Whether a value has the fields of the interface [Discount], each of its
    declared type. *)
Definition isNumber (v : JsValue) : bool :=
  match v with JNum _ => true | _ => false end.

Definition isString (v : JsValue) : bool :=
  match v with JStr _ => true | _ => false end.

Definition isNullOr (p : JsValue -> bool) (v : JsValue) : bool :=
  match v with JNull => true | _ => p v end.

Definition hasDiscountShape (v : JsValue) : bool :=
  match v with
  | JObj fields =>
      isString (lookupField fields "code")
      && (strictEqStr (lookupField fields "type") "percentage"
          || strictEqStr (lookupField fields "type") "fixed")
      && isNumber (lookupField fields "amount")
      && isNullOr isString (lookupField fields "validUntil")
      && isNullOr isNumber (lookupField fields "maxUses")
      && isNumber (lookupField fields "currentUses")
      && (strictEqStr (lookupField fields "status") "active"
          || strictEqStr (lookupField fields "status") "inactive"
          || strictEqStr (lookupField fields "status") "expired")
  | _ => false
  end.

Definition isNull (v : JsValue) : bool :=
  match v with JNull => true | _ => false end.

(** An object that is not an array. *)
Definition isRecord (v : JsValue) : bool :=
  match v with JObj _ => true | _ => false end.

(* ================================================================= *)
(** ** stores/discountStore.ts: the calculation on doubles *)

(** A JavaScript [number] is an IEEE-754 double.  The rational embedding of
    [getDiscountCalculation] above says what its formulas mean in exact
    arithmetic.  This module embeds the same function over the kernel's
    binary64 numbers, one operation of the source for one operation here, to
    compute what the code returns where the rounding of doubles decides. *)
Module Binary64.

(** An integer below 2^53 in magnitude, as a double. *)
Definition ofInteger (n : Z) : float :=
  let magnitude := PrimFloat.of_uint63 (Uint63.of_Z (Z.abs n)) in
  if n <? 0 then PrimFloat.opp magnitude else magnitude.

(** [Math.round] (ECMA-262, 21.3.2.28): the argument itself when it is not
    finite, a zero or integral (a finite double [m * 2^e] with [0 <= e]);
    otherwise the integer [floor (x + 1/2)], computed exactly, a tie going
    up, and [-0] when that integer is 0 and [x] is negative.  A double that
    is not integral is below 2^52 in magnitude. *)
Definition Math_round (x : float) : float :=
  match Prim2SF x with
  | S754_finite negative m e =>
      if 0 <=? e then x
      else
        let numerator := if negative then Z.neg m else Z.pos m in
        let n := (2 * numerator + 2 ^ (- e)) / 2 ^ (1 - e) in
        if (n =? 0) && negative then PrimFloat.neg_zero else ofInteger n
  | _ => x
  end.

(** [Math.min] of two numbers: [NaN] when either is, and [-0] below [+0]. *)
Definition Math_min (a b : float) : float :=
  if PrimFloat.is_nan a || PrimFloat.is_nan b then PrimFloat.nan
  else if PrimFloat.ltb a b then a
  else if PrimFloat.ltb b a then b
  else if PrimFloat.get_sign a then a else b.

(** The exact value of a finite double, in lowest terms. *)
Definition toQ (x : float) : option Q :=
  match Prim2SF x with
  | S754_zero _ => Some 0%Q
  | S754_finite negative m e =>
      let numerator := if negative then Z.neg m else Z.pos m in
      Some (Qred (if 0 <=? e
                  then inject_Z (numerator * 2 ^ e)
                  else numerator # Z.to_pos (2 ^ (- e))))
  | _ => None
  end.

(** [Discount], its [amount] a double. *)
Record Discount : Type := {
  code : string;
  type : DiscountType;
  amount : float;
  validUntil : option string;
  maxUses : option Z;
  currentUses : Z;
  status : DiscountStatus
}.

Record DiscountCalculation : Type := {
  originalPrice : float;
  discountAmount : float;
  finalPrice : float;
  percentageApplied : float
}.

(** The body of the computed store that [calculateDiscountAmount] returns. *)
Definition calculateDiscountAmount (sessionPrice : float) (discount : option Discount)
  : DiscountCalculation :=
  match discount with
  | None =>
      {| originalPrice := sessionPrice; discountAmount := 0;
         finalPrice := sessionPrice; percentageApplied := 0 |}
  | Some discount =>
      let '(discountAmount, percentage) :=
        match type discount with
        | Percentage =>
            (Math_round ((sessionPrice * amount discount) / 100 * 100) / 100,
             amount discount)
        | Fixed =>
            let discountAmount := Math_min (amount discount) sessionPrice in
            (discountAmount,
             if 0 <? sessionPrice
             then Math_round ((discountAmount / sessionPrice) * 100)
             else 0)
        end in
      let finalPrice := Math_round ((sessionPrice - discountAmount) * 100) / 100 in
      {| originalPrice := sessionPrice; discountAmount := discountAmount;
         finalPrice := finalPrice; percentageApplied := percentage |}
  end%float.

(** [getDiscountCalculation], given what [appliedDiscount.get()] returns. *)
Definition getDiscountCalculation (sessionPrice : float)
  (appliedDiscount : option Discount) : DiscountCalculation :=
  let discount := appliedDiscount in
  match discount with
  | None =>
      {| originalPrice := sessionPrice; discountAmount := 0;
         finalPrice := sessionPrice; percentageApplied := 0 |}
  | Some discount =>
      let '(discountAmount, percentage) :=
        match type discount with
        | Percentage =>
            (Math_round ((sessionPrice * amount discount) / 100 * 100) / 100,
             amount discount)
        | Fixed =>
            let discountAmount := Math_min (amount discount) sessionPrice in
            (discountAmount,
             if 0 <? sessionPrice
             then Math_round ((discountAmount / sessionPrice) * 100)
             else 0)
        end in
      let finalPrice := Math_round ((sessionPrice - discountAmount) * 100) / 100 in
      {| originalPrice := sessionPrice; discountAmount := discountAmount;
         finalPrice := finalPrice; percentageApplied := percentage |}
  end%float.

(** A percentage discount with nothing else to it. *)
Definition percentOff (percent : float) : Discount :=
  {| code := "PROMO"; type := Percentage; amount := percent;
     validUntil := None; maxUses := None; currentUses := 0; status := Active |}.

End Binary64.

(* ================================================================= *)
(** ** lib/graphql/queries/validateDiscountCode.ts *)

Module Validation.

Inductive DiscountErrorType : Type :=
| INVALID_CODE
| INACTIVE
| EXPIRED
| NO_USES_LEFT
| NETWORK_ERROR
| UNKNOWN_ERROR.

Definition errorTag (e : DiscountErrorType) : string :=
  match e with
  | INVALID_CODE => "INVALID_CODE"
  | INACTIVE => "INACTIVE"
  | EXPIRED => "EXPIRED"
  | NO_USES_LEFT => "NO_USES_LEFT"
  | NETWORK_ERROR => "NETWORK_ERROR"
  | UNKNOWN_ERROR => "UNKNOWN_ERROR"
  end.

(** [ValidateDiscountResponse['sauwaValidateDiscountCode']['discountCode']]. *)
Record DiscountCodeNode : Type := {
  id : Z;
  code : string;
  name : string;
  discountType : DiscountType;
  discountValue : Q;
  maxUses : option Z;
  currentUses : Z;
  validFrom : option string;
  validUntil : option string;
  status : DiscountStatus
}.

(** [ValidateDiscountResponse['sauwaValidateDiscountCode']]. *)
Record ValidateDiscountResponse : Type := {
  valid : bool;
  reason : string;
  calculatedDiscount : option Q;
  finalPriceCents : option Q;
  discountCode : option DiscountCodeNode
}.

Record ValidateDiscountResult : Type := {
  r_valid : bool;
  r_discount : option Discount;
  r_calculatedDiscount : option Q;
  r_finalPriceCents : option Q;
  r_message : option string;
  r_error : option DiscountErrorType
}.

(** The variables object handed to [graphqlQuery]. *)
Record Variables : Type := {
  v_code : string;
  v_subtotalCents : Q
}.

Definition VALIDATE_DISCOUNT_CODE_QUERY : string := "ValidateDiscountCode".

Section Client.
Context `{Runtime}.

Definition mapToErrorType (now : Z) (discountCode : option DiscountCodeNode)
  (reason : option string) : DiscountErrorType :=
  match discountCode with
  | None => INVALID_CODE
  | Some dc =>
      match status dc with
      | Inactive => INACTIVE
      | Expired => EXPIRED
      | Active =>
          if match validUntil dc with
             | None => false
             | Some s =>
                 if (s =? "")%string then false
                 else match Date_parse s with
                      | None => false
                      | Some validUntilDate => validUntilDate <? now
                      end
             end
          then EXPIRED
          else if match maxUses dc with
                  | None => false
                  | Some m => (m >? 0) && (currentUses dc >=? m)
                  end
               then NO_USES_LEFT
               else UNKNOWN_ERROR
      end
  end.

(** How the promise returned by [graphqlQuery] ends, and when (milliseconds
    after the call). *)
Inductive Settlement : Type :=
| Fulfilled (data : ValidateDiscountResponse)
| Rejected (e : Thrown).

Inductive Fate : Type :=
| SettlesAt (t : Z) (s : Settlement)
| NeverSettles.

(** [graphqlQuery] lives in [lib/graphql.ts]; the client hands it the query
    text and the variables and nothing else.  This is its type as the caller
    sees it. *)
Definition GraphqlQuery : Type := string -> Variables -> Fate.

(** The statements after [await], up to the [return]. *)
Definition onFulfilled (now : Z) (data : ValidateDiscountResponse)
  : ValidateDiscountResult :=
  let result := data in
  match valid result, discountCode result with
  | true, Some dc =>
      {| r_valid := true;
         r_discount := Some (Build_Discount
                               (code dc)            (* code *)
                               (discountType dc)    (* type *)
                               (discountValue dc)   (* amount *)
                               (validUntil dc)      (* validUntil *)
                               (maxUses dc)         (* maxUses *)
                               (currentUses dc)     (* currentUses *)
                               (status dc));        (* status *)
         r_calculatedDiscount := calculatedDiscount result;
         r_finalPriceCents := finalPriceCents result;
         r_message := Some (reason result);
         r_error := None |}
  | _, _ =>
      let errorType := mapToErrorType now (discountCode result) (Some (reason result)) in
      {| r_valid := false;
         r_discount := None;
         r_calculatedDiscount := None;
         r_finalPriceCents := None;
         r_message := Some (reason result);
         r_error := Some errorType |}
  end.

Definition timeoutResult : ValidateDiscountResult :=
  {| r_valid := false;
     r_discount := None;
     r_calculatedDiscount := None;
     r_finalPriceCents := None;
     r_message := Some "Request timeout";
     r_error := Some NETWORK_ERROR |}.

(** The [catch] block. *)
Definition onRejected (e : Thrown) : ValidateDiscountResult :=
  match e with
  | ThrownError name message =>
      if (name =? "AbortError")%string then timeoutResult
      else {| r_valid := false;
              r_discount := None;
              r_calculatedDiscount := None;
              r_finalPriceCents := None;
              r_message := Some message;
              r_error := Some NETWORK_ERROR |}
  | ThrownValue _ =>
      {| r_valid := false;
         r_discount := None;
         r_calculatedDiscount := None;
         r_finalPriceCents := None;
         r_message := Some "Unknown error";
         r_error := Some NETWORK_ERROR |}
  end.

(** One call of [validateDiscountCode] in flight: the flag of its
    [AbortController], whether its timer is still armed, and the value its
    promise resolved to, if it has. *)
Record Call : Type := {
  controllerAborted : bool;
  timerArmed : bool;
  resolved : option ValidateDiscountResult
}.

(** The state at the [await]: [new AbortController()] and
    [setTimeout(() => controller.abort(), 5000)] have run. *)
Definition atAwait : Call :=
  {| controllerAborted := false; timerArmed := true; resolved := None |}.

Inductive Event : Type :=
| TimerFired
| RequestSettled (at_ : Z) (s : Settlement).

(** The timer callback is [controller.abort()].  It sets the flag of the
    signal; [controller.signal] is read nowhere in the function, so no
    listener runs and the request does not see it.  A settled request runs
    [clearTimeout] and the rest of the [try] or the [catch] block. *)
Definition step (startedAt : Z) (c : Call) (ev : Event) : Call :=
  match ev with
  | TimerFired =>
      if timerArmed c
      then {| controllerAborted := true; timerArmed := false; resolved := resolved c |}
      else c
  | RequestSettled t s =>
      {| controllerAborted := controllerAborted c;
         timerArmed := false;
         resolved := Some match s with
                          | Fulfilled data => onFulfilled (startedAt + t) data
                          | Rejected e => onRejected e
                          end |}
  end.

Definition TIMEOUT_MS : Z := 5000.

(** The events of one call, in the order the event loop delivers them. *)
Definition events (fate : Fate) : list Event :=
  match fate with
  | NeverSettles => [TimerFired]
  | SettlesAt t s =>
      if t <? TIMEOUT_MS
      then [RequestSettled t s; TimerFired]
      else [TimerFired; RequestSettled t s]
  end.

Definition validateDiscountCode (graphqlQuery : GraphqlQuery) (startedAt : Z)
  (code : string) (subtotalCents : Q) : Call :=
  let fate :=
    graphqlQuery VALIDATE_DISCOUNT_CODE_QUERY
      {| v_code := String_toUpperCase (String_trim code);
         v_subtotalCents := subtotalCents |} in
  fold_left (step startedAt) (events fate) atAwait.

End Client.

End Validation.

(** The first version of the classifier, on the schema with [isActive]. *)
Module ValidationLegacy.

Record DiscountCodeNode : Type := {
  code : string;
  percentage : Q;
  validUntil : string;
  usageLimit : Z;
  usageCount : Z;
  isActive : bool
}.

Section Client.
Context `{Runtime}.

Definition mapToErrorType (now : Z) (discountCode : option DiscountCodeNode)
  : Validation.DiscountErrorType :=
  match discountCode with
  | None => Validation.INVALID_CODE
  | Some dc =>
      if negb (isActive dc) then Validation.INACTIVE
      else if if (validUntil dc =? "")%string then false
              else match Date_parse (validUntil dc) with
                   | None => false
                   | Some validUntilDate => validUntilDate <? now
                   end
           then Validation.EXPIRED
           else if (usageLimit dc >? 0) && (usageCount dc >=? usageLimit dc)
                then Validation.NO_USES_LEFT
                else Validation.UNKNOWN_ERROR
  end.

End Client.

End ValidationLegacy.

(* ================================================================= *)
(** ** validateDiscountCode.ts: answers without the declared member *)

(** [graphqlQuery<ValidateDiscountResponse>] casts what the backend sent, it
    does not check it: the promise can be fulfilled with null or [undefined],
    or with a value that has no member [sauwaValidateDiscountCode], or null
    there.  Reading [data.sauwaValidateDiscountCode] or [result.valid] then
    throws a [TypeError], inside the [try] block and after the first
    [clearTimeout]; the [catch] block runs [clearTimeout] once more and
    returns.  For the call this is what a rejection with that [TypeError]
    does. *)
Module Unchecked.

(** What the promise is fulfilled with: a value with the member, of the
    declared type, or a value without it, together with the message of the
    [TypeError] that the engine throws for it. *)
Inductive Payload : Type :=
| WithMember (data : Validation.ValidateDiscountResponse)
| WithoutMember (typeErrorMessage : string).

Inductive Settlement : Type :=
| Fulfilled (payload : Payload)
| Rejected (e : Thrown).

Inductive Fate : Type :=
| SettlesAt (t : Z) (s : Settlement)
| NeverSettles.

Definition GraphqlQuery : Type := string -> Validation.Variables -> Fate.

(** What the [try] statement makes of a settlement: the statements after
    [await] run to their [return], or the [catch] block receives an error. *)
Definition inTry (s : Settlement) : Validation.Settlement :=
  match s with
  | Fulfilled (WithMember data) => Validation.Fulfilled data
  | Fulfilled (WithoutMember typeErrorMessage) =>
      Validation.Rejected (ThrownError "TypeError" typeErrorMessage)
  | Rejected e => Validation.Rejected e
  end.

Definition seenByTheCall (graphqlQuery : GraphqlQuery) : Validation.GraphqlQuery :=
  fun query variables =>
    match graphqlQuery query variables with
    | SettlesAt t s => Validation.SettlesAt t (inTry s)
    | NeverSettles => Validation.NeverSettles
    end.

Section Client.
Context `{Runtime}.

Definition validateDiscountCode (graphqlQuery : GraphqlQuery) (startedAt : Z)
  (code : string) (subtotalCents : Q) : Validation.Call :=
  Validation.validateDiscountCode (seenByTheCall graphqlQuery)
    startedAt code subtotalCents.

End Client.

End Unchecked.

(* ================================================================= *)
(** ** A runtime to compute with

    An executable instance of [Runtime], to run the model on concrete inputs.
    It covers byte strings in the ASCII range: [trim] and [toUpperCase] on
    ASCII, [JSON.parse] after the grammar of ECMA-404, and [Date] on the
    date-time interchange format of ECMA-262 read in UTC ([YYYY-MM-DD],
    [YYYY-MM-DDTHH:mm:ss], optional milliseconds, optional [Z]).

    Where it stops short of an engine: a number literal is read exactly, not
    rounded to a double; a [\u] escape becomes the UTF-8 bytes of its code
    unit; every date string outside the interchange format, which an engine
    reads as it pleases, is an Invalid Date, and so is an array or an object
    handed to [Date]. *)

Module Engine.

Definition codeOf (c : ascii) : Z := Z.of_N (N_of_ascii c).

Definition charOf (n : Z) : ascii := ascii_of_N (Z.to_N n).

Definition isWhiteSpace (c : ascii) : bool :=
  let n := codeOf c in
  ((9 <=? n) && (n <=? 13)) || (n =? 32).

Fixpoint trimStart (s : string) : string :=
  match s with
  | EmptyString => EmptyString
  | String c r => if isWhiteSpace c then trimStart r else s
  end.

(** Drops the white space at the end: a character is kept when it is not
    white space or when something is kept after it. *)
Fixpoint trimEnd (s : string) : string :=
  match s with
  | EmptyString => EmptyString
  | String c r =>
      match trimEnd r with
      | EmptyString => if isWhiteSpace c then EmptyString else String c EmptyString
      | r' => String c r'
      end
  end.

Definition trim (s : string) : string := trimEnd (trimStart s).

Definition upperChar (c : ascii) : ascii :=
  let n := codeOf c in
  if (97 <=? n) && (n <=? 122) then charOf (n - 32) else c.

Fixpoint toUpperCase (s : string) : string :=
  match s with
  | EmptyString => EmptyString
  | String c r => String (upperChar c) (toUpperCase r)
  end.

(** *** JSON.parse *)

Definition isJsonWs (c : ascii) : bool :=
  let n := codeOf c in
  (n =? 32) || (n =? 9) || (n =? 10) || (n =? 13).

Fixpoint skipWs (s : string) : string :=
  match s with
  | EmptyString => EmptyString
  | String c r => if isJsonWs c then skipWs r else s
  end.

Fixpoint stripPrefix (p s : string) : option string :=
  match p with
  | EmptyString => Some s
  | String a p' =>
      match s with
      | EmptyString => None
      | String b s' => if Ascii.eqb a b then stripPrefix p' s' else None
      end
  end.

Definition isDigit (c : ascii) : bool :=
  let n := codeOf c in (48 <=? n) && (n <=? 57).

(** The digits at the head of [s]: their value after [acc], how many there
    are after [count], and what follows them. *)
Fixpoint takeDigits (s : string) (acc count : Z) : Z * Z * string :=
  match s with
  | EmptyString => (acc, count, s)
  | String c r =>
      if isDigit c then takeDigits r (10 * acc + (codeOf c - 48)) (count + 1)
      else (acc, count, s)
  end.

(** [mantissa * 10 ^ exponent]. *)
Definition scale10 (mantissa exponent : Z) : Q :=
  if 0 <=? exponent then inject_Z (mantissa * 10 ^ exponent)
  else Qmake mantissa (Z.to_pos (10 ^ (- exponent))).

Definition parseExponent (s : string) : option (Z * string) :=
  match s with
  | String c r =>
      if (codeOf c =? 101) || (codeOf c =? 69) then
        let '(negative, r1) :=
          match r with
          | String sign r' =>
              if codeOf sign =? 45 then (true, r')
              else if codeOf sign =? 43 then (false, r')
              else (false, r)
          | EmptyString => (false, r)
          end in
        let '(e, count, rest) := takeDigits r1 0 0 in
        if count =? 0 then None
        else Some (if negative then - e else e, rest)
      else Some (0, s)
  | EmptyString => Some (0, s)
  end.

Definition parseFraction (s : string) : option (Z * Z * string) :=
  match s with
  | String c r =>
      if codeOf c =? 46 then
        let '(f, count, rest) := takeDigits r 0 0 in
        if count =? 0 then None else Some (f, count, rest)
      else Some (0, 0, s)
  | EmptyString => Some (0, 0, s)
  end.

Definition parseNumber (s : string) : option (Q * string) :=
  let '(negative, s1) :=
    match s with
    | String c r => if codeOf c =? 45 then (true, r) else (false, s)
    | EmptyString => (false, s)
    end in
  match s1 with
  | EmptyString => None
  | String c r =>
      if isDigit c then
        let '(int, s2) :=
          if codeOf c =? 48 then (0, r)
          else let '(i, _, rest) := takeDigits s1 0 0 in (i, rest) in
        match parseFraction s2 with
        | None => None
        | Some (frac, fracDigits, s3) =>
            match parseExponent s3 with
            | None => None
            | Some (e, s4) =>
                let mantissa := int * 10 ^ fracDigits + frac in
                Some (scale10 (if negative then - mantissa else mantissa)
                        (e - fracDigits), s4)
            end
        end
      else None
  end.

Definition hexValue (c : ascii) : option Z :=
  let n := codeOf c in
  if (48 <=? n) && (n <=? 57) then Some (n - 48)
  else if (65 <=? n) && (n <=? 70) then Some (n - 55)
  else if (97 <=? n) && (n <=? 102) then Some (n - 87)
  else None.

(** The UTF-8 bytes of a code unit. *)
Definition utf8 (n : Z) (rest : string) : string :=
  if n <? 128 then String (charOf n) rest
  else if n <? 2048 then
    String (charOf (192 + n / 64)) (String (charOf (128 + n mod 64)) rest)
  else
    String (charOf (224 + n / 4096))
      (String (charOf (128 + (n / 64) mod 64))
         (String (charOf (128 + n mod 64)) rest)).

(** The characters of a string literal after its opening quote. *)
Fixpoint parseString (s : string) : option (string * string) :=
  match s with
  | EmptyString => None
  | String c r =>
      let n := codeOf c in
      if n =? 34 then Some (EmptyString, r)
      else if n <? 32 then None
      else if n =? 92 then
        match r with
        | EmptyString => None
        | String e r1 =>
            let simple (ch : Z) :=
              match parseString r1 with
              | Some (str, rest) => Some (String (charOf ch) str, rest)
              | None => None
              end in
            let m := codeOf e in
            if m =? 34 then simple 34
            else if m =? 92 then simple 92
            else if m =? 47 then simple 47
            else if m =? 98 then simple 8
            else if m =? 102 then simple 12
            else if m =? 110 then simple 10
            else if m =? 114 then simple 13
            else if m =? 116 then simple 9
            else if m =? 117 then
              match r1 with
              | String h1 (String h2 (String h3 (String h4 r2))) =>
                  match hexValue h1, hexValue h2, hexValue h3, hexValue h4 with
                  | Some a, Some b, Some c', Some d =>
                      match parseString r2 with
                      | Some (str, rest) =>
                          Some (utf8 (((a * 16 + b) * 16 + c') * 16 + d) str, rest)
                      | None => None
                      end
                  | _, _, _, _ => None
                  end
              | _ => None
              end
            else None
        end
      else
        match parseString r with
        | Some (str, rest) => Some (String c str, rest)
        | None => None
        end
  end.

(** A later member replaces an earlier one of the same name, in place. *)
Fixpoint setField (fields : list (string * JsValue)) (key : string) (v : JsValue)
  : list (string * JsValue) :=
  match fields with
  | [] => [(key, v)]
  | (k, old) :: rest =>
      if (k =? key)%string then (k, v) :: rest else (k, old) :: setField rest key v
  end.

Definition headIs (n : Z) (s : string) : option string :=
  match s with
  | String c r => if codeOf c =? n then Some r else None
  | EmptyString => None
  end.

(** A value at the head of [s] and what follows it.  [fuel] bounds the
    number of values, elements and members still to be read. *)
Fixpoint parseValue (fuel : nat) (s : string) {struct fuel}
  : option (JsValue * string) :=
  match fuel with
  | O => None
  | S fuel' =>
      let s := skipWs s in
      match s with
      | EmptyString => None
      | String c r =>
          let n := codeOf c in
          if n =? 123 then
            match headIs 125 (skipWs r) with
            | Some rest => Some (JObj [], rest)
            | None => parseMembers fuel' r []
            end
          else if n =? 91 then
            match headIs 93 (skipWs r) with
            | Some rest => Some (JArr [], rest)
            | None => parseElements fuel' r []
            end
          else if n =? 34 then
            match parseString r with
            | Some (str, rest) => Some (JStr str, rest)
            | None => None
            end
          else
            match stripPrefix "null" s, stripPrefix "true" s, stripPrefix "false" s with
            | Some rest, _, _ => Some (JNull, rest)
            | _, Some rest, _ => Some (JBool true, rest)
            | _, _, Some rest => Some (JBool false, rest)
            | None, None, None =>
                match parseNumber s with
                | Some (q, rest) => Some (JNum q, rest)
                | None => None
                end
            end
      end
  end

with parseElements (fuel : nat) (s : string) (acc : list JsValue) {struct fuel}
  : option (JsValue * string) :=
  match fuel with
  | O => None
  | S fuel' =>
      match parseValue fuel' s with
      | None => None
      | Some (v, r) =>
          let r := skipWs r in
          match headIs 44 r, headIs 93 r with
          | Some rest, _ => parseElements fuel' rest (acc ++ [v])
          | None, Some rest => Some (JArr (acc ++ [v]), rest)
          | None, None => None
          end
      end
  end

with parseMembers (fuel : nat) (s : string) (acc : list (string * JsValue))
  {struct fuel} : option (JsValue * string) :=
  match fuel with
  | O => None
  | S fuel' =>
      match headIs 34 (skipWs s) with
      | None => None
      | Some r0 =>
          match parseString r0 with
          | None => None
          | Some (key, r1) =>
              match headIs 58 (skipWs r1) with
              | None => None
              | Some r2 =>
                  match parseValue fuel' r2 with
                  | None => None
                  | Some (v, r3) =>
                      let r3 := skipWs r3 in
                      match headIs 44 r3, headIs 125 r3 with
                      | Some rest, _ => parseMembers fuel' rest (setField acc key v)
                      | None, Some rest => Some (JObj (setField acc key v), rest)
                      | None, None => None
                      end
                  end
              end
          end
      end
  end.

Definition syntaxError : Thrown := ThrownError "SyntaxError" "Unexpected token in JSON".

(** Each level of the recursion reads a character, so the length of the
    text, doubled, is fuel that does not run out. *)
Definition jsonParse (text : string) : Completion JsValue :=
  match parseValue (2 * String.length text + 2) text with
  | Some (v, rest) =>
      match skipWs rest with
      | EmptyString => Normal v
      | String _ _ => Throw syntaxError
      end
  | None => Throw syntaxError
  end.

(** *** Date *)

(** Exactly [n] digits. *)
Fixpoint fixedDigits (n : nat) (s : string) (acc : Z) : option (Z * string) :=
  match n with
  | O => Some (acc, s)
  | S n' =>
      match s with
      | String c r =>
          if isDigit c then fixedDigits n' r (10 * acc + (codeOf c - 48)) else None
      | EmptyString => None
      end
  end.

Definition isLeapYear (y : Z) : bool :=
  ((y mod 4 =? 0) && negb (y mod 100 =? 0)) || (y mod 400 =? 0).

Definition daysInMonth (y m : Z) : Z :=
  if m =? 2 then (if isLeapYear y then 29 else 28)
  else if (m =? 4) || (m =? 6) || (m =? 9) || (m =? 11) then 30
  else 31.

(** Days from 1970-01-01 to the civil date [y]-[m]-[d]. *)
Definition daysFromCivil (y m d : Z) : Z :=
  let y' := if m <=? 2 then y - 1 else y in
  let era := y' / 400 in
  let yoe := y' - era * 400 in
  let mp := if m >? 2 then m - 3 else m + 9 in
  let doy := (153 * mp + 2) / 5 + d - 1 in
  let doe := yoe * 365 + yoe / 4 - yoe / 100 + doy in
  era * 146097 + doe - 719468.

Definition msPerDay : Z := 86400000.

Definition parseTime (s : string) : option Z :=
  match fixedDigits 2 s 0 with
  | None => None
  | Some (hh, s1) =>
      match headIs 58 s1 with
      | None => None
      | Some s2 =>
          match fixedDigits 2 s2 0 with
          | None => None
          | Some (mm, s3) =>
              match headIs 58 s3 with
              | None => None
              | Some s4 =>
                  match fixedDigits 2 s4 0 with
                  | None => None
                  | Some (ss, s5) =>
                      let millis :=
                        match headIs 46 s5 with
                        | Some s6 =>
                            match fixedDigits 3 s6 0 with
                            | Some (ms, s7) => Some (ms, s7)
                            | None => None
                            end
                        | None => Some (0, s5)
                        end in
                      match millis with
                      | None => None
                      | Some (ms, s8) =>
                          let tail := match headIs 90 s8 with Some t => t | None => s8 end in
                          match tail with
                          | EmptyString =>
                              if (hh <=? 23) && (mm <=? 59) && (ss <=? 59)
                              then Some (((hh * 60 + mm) * 60 + ss) * 1000 + ms)
                              else None
                          | String _ _ => None
                          end
                      end
                  end
              end
          end
      end
  end.

Definition dateParse (s : string) : option Z :=
  match fixedDigits 4 s 0 with
  | None => None
  | Some (y, s1) =>
      match headIs 45 s1 with
      | None => None
      | Some s2 =>
          match fixedDigits 2 s2 0 with
          | None => None
          | Some (m, s3) =>
              match headIs 45 s3 with
              | None => None
              | Some s4 =>
                  match fixedDigits 2 s4 0 with
                  | None => None
                  | Some (d, s5) =>
                      if (1 <=? m) && (m <=? 12) && (1 <=? d) && (d <=? daysInMonth y m)
                      then
                        let day := daysFromCivil y m d * msPerDay in
                        match s5 with
                        | EmptyString => Some day
                        | String c r =>
                            if codeOf c =? 84 then
                              match parseTime r with
                              | Some t => Some (day + t)
                              | None => None
                              end
                            else None
                        end
                      else None
                  end
              end
          end
      end
  end.

Definition dateOfObject (v : JsValue) : Completion (option Z) := Normal None.

Definition runtime : Runtime :=
  {| String_trim := trim;
     String_toUpperCase := toUpperCase;
     JSON_parse := jsonParse;
     Date_parse := dateParse;
     Date_ofObject := dateOfObject;
     Date_parse_empty := eq_refl |}.

End Engine.

(* ================================================================= *)
(** ** The design document's notions, in its own words *)

Section DesignNotions.
Context `{Runtime}.

(** The validity end timestamp of a record, when it has one. *)
Definition validityEnd (validUntil : option string) : option Z :=
  match validUntil with
  | Some s => Date_parse s
  | None => None
  end.

(** "Its validity end timestamp is in the past relative to current time." *)
Definition endInPast (now : Z) (validUntil : option string) : Prop :=
  exists t, validityEnd validUntil = Some t /\ t < now.

Definition endInPastb (now : Z) (validUntil : option string) : bool :=
  match validityEnd validUntil with
  | Some t => t <? now
  | None => false
  end.

(** The expiry rule of the store. *)
Definition expiredByRule (now : Z) (d : Discount) : Prop :=
  status d = Inactive \/ status d = Expired \/ endInPast now (validUntil d).

(** The decision order of the error classifier, first match wins. *)
Definition classifyInOrder (now : Z) (record : option Validation.DiscountCodeNode)
  : Validation.DiscountErrorType :=
  match record with
  | None => Validation.INVALID_CODE
  | Some r =>
      match Validation.status r with
      | Inactive => Validation.INACTIVE
      | _ =>
          if match Validation.status r with Expired => true | _ => false end
             || endInPastb now (Validation.validUntil r)
          then Validation.EXPIRED
          else if match Validation.maxUses r with
                  | Some cap => (0 <? cap) && (cap <=? Validation.currentUses r)
                  | None => false
                  end
               then Validation.NO_USES_LEFT
               else Validation.UNKNOWN_ERROR
      end
  end.

(** The same order on the first schema, which has a flag for inactive and
    none for expired. *)
Definition legacyClassifyInOrder (now : Z)
  (record : option ValidationLegacy.DiscountCodeNode)
  : Validation.DiscountErrorType :=
  match record with
  | None => Validation.INVALID_CODE
  | Some r =>
      if negb (ValidationLegacy.isActive r) then Validation.INACTIVE
      else if endInPastb now (Some (ValidationLegacy.validUntil r))
           then Validation.EXPIRED
           else if (0 <? ValidationLegacy.usageLimit r)
                   && (ValidationLegacy.usageLimit r <=? ValidationLegacy.usageCount r)
                then Validation.NO_USES_LEFT
                else Validation.UNKNOWN_ERROR
  end.

End DesignNotions.

(** Rounding to the nearest integer, a tie going away from zero. *)
Definition roundHalfAwayFromZero (x : Q) : Z :=
  if Qle_bool 0 x then Qfloor (x + (1 # 2)) else Qceiling (x - (1 # 2)).

(** A whole number of hundredths of the currency unit. *)
Definition wholeHundredths (x : Q) : Prop :=
  exists k : Z, (x == inject_Z k / 100)%Q.

(** An integer amount. *)
Definition wholeUnits (x : Q) : Prop :=
  exists k : Z, (x == inject_Z k)%Q.

(** The actions of the store, to speak of sequences of them. *)
Inductive Action : Type :=
| SetDiscountCode (code : string)
| SetValidating
| SetValid (discount : Discount)
| SetError (err : DiscountErrorType)
| ClearDiscount
| RevalidateStoredDiscount (now : Z).

Definition perform `{Runtime} (st : Store) (a : Action) : Store :=
  match a with
  | SetDiscountCode code => setDiscountCode code st
  | SetValidating => setValidating st
  | SetValid discount => setValid discount st
  | SetError err => setError err st
  | ClearDiscount => clearDiscount st
  | RevalidateStoredDiscount now => revalidateStoredDiscount now st
  end.

Definition performAll `{Runtime} (actions : list Action) (st : Store) : Store :=
  fold_left perform actions st.

(** The invariant tying the status to the error atom. *)
Definition errorStatusAgree (st : Store) : Prop :=
  discountState st = Error <-> discountError st <> None.

(* ================================================================= *)
(** ** Sample data *)

(** 2026-01-01T00:00:00Z, a clock reading after the end of [summer20]. *)
Definition newYear2026 : Z := 1767225600000.

Definition summer20 : Discount :=
  {| code := "SUMMER20"; type := Percentage; amount := 20;
     validUntil := Some "2025-12-31T23:59:59Z";
     maxUses := Some 100; currentUses := 10; status := Active |}.

Definition fifteenPercent : Discount :=
  {| code := "FIFTEEN"; type := Percentage; amount := 15;
     validUntil := None; maxUses := None; currentUses := 0; status := Active |}.

Definition fiveOff : Discount :=
  {| code := "FIVEOFF"; type := Fixed; amount := 5;
     validUntil := None; maxUses := None; currentUses := 0; status := Active |}.

Definition nothingOff : Discount :=
  {| code := "NOTHING"; type := Fixed; amount := 0;
     validUntil := None; maxUses := None; currentUses := 0; status := Active |}.

(** A cap of zero. *)
Definition zeroCap : Discount :=
  {| code := "FREE5"; type := Fixed; amount := 5;
     validUntil := None; maxUses := Some 0; currentUses := 7; status := Active |}.

(** The store after [setValid d]. *)
Definition withDiscount (d : Discount) : Store :=
  {| discountCode := ""; discountState := Valid;
     appliedDiscount := Some d; discountError := None |}.

(** Backend records: [summer20] as the backend sends it, and a record that
    is inactive, past its end and used up, all at once. *)
Definition summer20Node : Validation.DiscountCodeNode :=
  {| Validation.id := 7;
     Validation.code := "SUMMER20";
     Validation.name := "Summer";
     Validation.discountType := Percentage;
     Validation.discountValue := 20;
     Validation.maxUses := Some 100;
     Validation.currentUses := 10;
     Validation.validFrom := None;
     Validation.validUntil := Some "2025-12-31T23:59:59Z";
     Validation.status := Active |}.

Definition lapsedAndInactive : Validation.DiscountCodeNode :=
  {| Validation.id := 7;
     Validation.code := "SUMMER20";
     Validation.name := "Summer";
     Validation.discountType := Percentage;
     Validation.discountValue := 20;
     Validation.maxUses := Some 100;
     Validation.currentUses := 100;
     Validation.validFrom := None;
     Validation.validUntil := Some "2025-12-31T23:59:59Z";
     Validation.status := Inactive |}.

(** A backend that knows one code, 20 percent off. *)
Definition acceptsSummer20 (v : Validation.Variables)
  : Validation.ValidateDiscountResponse :=
  if (Validation.v_code v =? "SUMMER20")%string
  then {| Validation.valid := true;
          Validation.reason := "ok";
          Validation.calculatedDiscount :=
            Some (Validation.v_subtotalCents v * (20 # 100))%Q;
          Validation.finalPriceCents :=
            Some (Validation.v_subtotalCents v * (80 # 100))%Q;
          Validation.discountCode := Some summer20Node |}
  else {| Validation.valid := false;
          Validation.reason := "not_found";
          Validation.calculatedDiscount := None;
          Validation.finalPriceCents := None;
          Validation.discountCode := None |}.

(** It answers after 120 ms, after six seconds, or never. *)
Definition answersAtOnce : Validation.GraphqlQuery :=
  fun _ variables =>
    Validation.SettlesAt 120 (Validation.Fulfilled (acceptsSummer20 variables)).

Definition answersAfterSixSeconds : Validation.GraphqlQuery :=
  fun _ variables =>
    Validation.SettlesAt 6000 (Validation.Fulfilled (acceptsSummer20 variables)).

Definition neverAnswers : Validation.GraphqlQuery :=
  fun _ _ => Validation.NeverSettles.

(** Stored texts.  A double quote, and a text between double quotes. *)
Definition dquote : string := String (ascii_of_nat 34) EmptyString.

Definition quoted (s : string) : string := dquote ++ s ++ dquote.

(** An object with the one member [code], of value [SUMMER20]: a record
    that lost its other fields. *)
Definition truncatedRecord : string :=
  "{" ++ quoted "code" ++ ":" ++ quoted "SUMMER20" ++ "}".

(** An object cut short before its closing brace. *)
Definition unparsableRecord : string :=
  "{" ++ quoted "status" ++ ":" ++ quoted "active" ++ ","
      ++ quoted "validUntil" ++ ":" ++ quoted "2025-12-31T23:59:59Z".

(* ================================================================= *)
(** ** More of the store, and lib/utils/discount-helpers.ts *)

(** A test of the form [/^[class]{lo,hi}$/]: between [lo] and [hi]
    characters, each of the class. *)
Fixpoint allChars (p : ascii -> bool) (s : string) : bool :=
  match s with
  | EmptyString => true
  | String c r => p c && allChars p r
  end.

Definition classRepeated (p : ascii -> bool) (lo hi : nat) (s : string) : bool :=
  (lo <=? String.length s)%nat && (String.length s <=? hi)%nat && allChars p s.

Definition isUpperOrDigit (c : ascii) : bool :=
  let n := Engine.codeOf c in
  ((65 <=? n) && (n <=? 90)) || ((48 <=? n) && (n <=? 57)).

Definition isLetterOrDigit (c : ascii) : bool :=
  let n := Engine.codeOf c in
  ((65 <=? n) && (n <=? 90)) || ((97 <=? n) && (n <=? 122))
  || ((48 <=? n) && (n <=? 57)).

Section Validators.
Context `{Runtime}.

(** [validateCodeFormat] of the store: [/^[A-Z0-9]{4,20}$/] on the
    upper-cased code. *)
Definition validateCodeFormat (code : string) : bool :=
  classRepeated isUpperOrDigit 4 20 (String_toUpperCase code).

(** [isValidCodeFormat] of the helpers: an empty code is refused, then
    [/^[A-Za-z0-9]{3,20}$/] on the trimmed code. *)
Definition isValidCodeFormat (code : string) : bool :=
  if (code =? "")%string then false
  else
    let trimmed := String_trim code in
    classRepeated isLetterOrDigit 3 20 trimmed.

Definition normalizeCode (code : string) : string :=
  String_toUpperCase (String_trim code).

End Validators.

Definition isValidating (st : Store) : bool :=
  match discountState st with Validating => true | _ => false end.

(** The calculations of the helpers, in exact arithmetic. *)
Definition calculateSavings (originalPriceCents finalPriceCents : Q) : Q :=
  (originalPriceCents - finalPriceCents)%Q.

Definition calculateDiscountPercentage (originalPriceCents finalPriceCents : Q) : Q :=
  if Qle_bool originalPriceCents 0 then 0%Q
  else
    let savings := calculateSavings originalPriceCents finalPriceCents in
    Math_round ((savings / originalPriceCents) * 100)%Q.

Definition applyPercentageDiscount (priceCents percentage : Q) : Q :=
  let discount := Math_round (priceCents * (percentage / 100))%Q in
  (priceCents - discount)%Q.

(** The shape of a state, by status. *)
Definition shapeByStatus (st : Store) : Prop :=
  match discountState st with
  | Idle | Validating => discountError st = None
  | Valid => discountError st = None /\ appliedDiscount st <> None
  | Error => discountError st <> None /\ appliedDiscount st = None
  end.

(** Text that does not start with white space. *)
Definition startsClean (s : string) : Prop :=
  match s with
  | EmptyString => True
  | String c _ => Engine.isWhiteSpace c = false
  end.

(* ================================================================= *)
(** ** lib/graphql/mutations/applyDiscountCode.ts *)

Module Application.

(** [ApplyDiscountResponse['sauwaApplyDiscountCode']]. *)
Record ApplyDiscountResponse : Type := {
  success : bool;
  message : string;
  discountApplied : option Q
}.

Record ApplyDiscountResult : Type := {
  r_success : bool;
  r_message : string;
  r_discountApplied : option Q
}.

Record Variables : Type := {
  v_code : string;
  v_bookingId : Z
}.

Definition APPLY_DISCOUNT_CODE_MUTATION : string := "ApplyDiscountCode".

Inductive Settlement : Type :=
| Fulfilled (data : ApplyDiscountResponse)
| Rejected (e : Thrown).

Inductive Fate : Type :=
| SettlesAt (t : Z) (s : Settlement)
| NeverSettles.

Definition GraphqlQuery : Type := string -> Variables -> Fate.

(** The statements after [await]. *)
Definition onFulfilled (data : ApplyDiscountResponse) : ApplyDiscountResult :=
  let result := data in
  {| r_success := success result;
     r_message := message result;
     r_discountApplied := discountApplied result |}.

(** The [catch] block. *)
Definition onRejected (e : Thrown) : ApplyDiscountResult :=
  let errorMessage :=
    match e with
    | ThrownError _ message => message
    | ThrownValue _ => "Unknown error"
    end in
  {| r_success := false;
     r_message := "Error applying discount: " ++ errorMessage;
     r_discountApplied := None |}.

Record Call : Type := {
  controllerAborted : bool;
  timerArmed : bool;
  resolved : option ApplyDiscountResult
}.

Definition atAwait : Call :=
  {| controllerAborted := false; timerArmed := true; resolved := None |}.

Inductive Event : Type :=
| TimerFired
| RequestSettled (s : Settlement).

(** As in the validation client: the timer callback is [controller.abort()]
    on a controller whose signal is handed to nobody, and a settled request
    runs [clearTimeout] and the rest of its branch. *)
Definition step (c : Call) (ev : Event) : Call :=
  match ev with
  | TimerFired =>
      if timerArmed c
      then {| controllerAborted := true; timerArmed := false; resolved := resolved c |}
      else c
  | RequestSettled s =>
      {| controllerAborted := controllerAborted c;
         timerArmed := false;
         resolved := Some match s with
                          | Fulfilled data => onFulfilled data
                          | Rejected e => onRejected e
                          end |}
  end.

Definition events (fate : Fate) : list Event :=
  match fate with
  | NeverSettles => [TimerFired]
  | SettlesAt t s =>
      if t <? 5000
      then [RequestSettled s; TimerFired]
      else [TimerFired; RequestSettled s]
  end.

Definition applyDiscountCode `{Runtime} (graphqlQuery : GraphqlQuery)
  (code : string) (bookingId : Z) : Call :=
  let fate :=
    graphqlQuery APPLY_DISCOUNT_CODE_MUTATION
      {| v_code := String_toUpperCase (String_trim code);
         v_bookingId := bookingId |} in
  fold_left step (events fate) atAwait.

End Application.



(** The discount the validation client builds from a record. *)
Definition discountOfNode (dc : Validation.DiscountCodeNode) : Discount :=
  {| code := Validation.code dc;
     type := Validation.discountType dc;
     amount := Validation.discountValue dc;
     validUntil := Validation.validUntil dc;
     maxUses := Validation.maxUses dc;
     currentUses := Validation.currentUses dc;
     status := Validation.status dc |}.

(** A backend that calls an inactive record valid. *)
Definition callsInactiveValid : Validation.ValidateDiscountResponse :=
  {| Validation.valid := true;
     Validation.reason := "ok";
     Validation.calculatedDiscount := Some 1000%Q;
     Validation.finalPriceCents := Some 4000%Q;
     Validation.discountCode := Some lapsedAndInactive |}.

(** A mutation request that fails after seven seconds with an abort. *)
Definition abortsAfterSevenSeconds : Application.GraphqlQuery :=
  fun _ _ =>
    Application.SettlesAt 7000
      (Application.Rejected (ThrownError "AbortError" "The operation was aborted")).

(* ================================================================= *)
(** ** types/discount-errors.ts: the display of an error *)

Inductive Severity : Type := SeverityError | SeverityWarning | SeverityInfo.

Record DiscountErrorConfig : Type := {
  title : string;
  description : string;
  icon : string;
  severity : Severity
}.

(** [ERROR_MESSAGES], by key. *)
Definition ERROR_MESSAGES (errorType : DiscountErrorType) : DiscountErrorConfig :=
  match errorType with
  | INVALID_CODE =>
      {| title := "Codigo no valido";
         description := "El codigo de descuento introducido no existe. Por favor, verifica que lo has escrito correctamente.";
         icon := "x-circle";
         severity := SeverityError |}
  | EXPIRED =>
      {| title := "Codigo expirado";
         description := "Este codigo de descuento ya no es valido. Ha superado su fecha de caducidad.";
         icon := "clock";
         severity := SeverityWarning |}
  | NO_USES_LEFT =>
      {| title := "Codigo agotado";
         description := "Este codigo de descuento ha alcanzado su limite maximo de usos.";
         icon := "ban";
         severity := SeverityWarning |}
  | ALREADY_USED =>
      {| title := "Codigo ya utilizado";
         description := "Ya has utilizado este codigo de descuento anteriormente. Solo se permite un uso por usuario.";
         icon := "user-x";
         severity := SeverityWarning |}
  | INACTIVE =>
      {| title := "Codigo inactivo";
         description := "Este codigo de descuento no esta activo actualmente.";
         icon := "pause-circle";
         severity := SeverityInfo |}
  | NETWORK_ERROR =>
      {| title := "Error de conexion";
         description := "No se ha podido validar el codigo. Por favor, comprueba tu conexion e intentalo de nuevo.";
         icon := "wifi-off";
         severity := SeverityError |}
  | VALIDATION_ERROR =>
      {| title := "Error de validacion";
         description := "Ha ocurrido un error al validar el codigo. Por favor, intentalo de nuevo.";
         icon := "alert-triangle";
         severity := SeverityError |}
  end.

Definition getErrorConfig (errorType : DiscountErrorType) : DiscountErrorConfig :=
  ERROR_MESSAGES errorType.

(* ================================================================= *)
(** ** lib/blog-queries.ts: the cache *)

(** A JavaScript [Map] with string keys: its entries in insertion order, each
    key once.  [set] on a present key replaces the value in place. *)
Definition JsMap (V : Type) : Type := list (string * V).

Fixpoint mapGet {V} (m : JsMap V) (key : string) : option V :=
  match m with
  | [] => None
  | (k, v) :: rest => if (k =? key)%string then Some v else mapGet rest key
  end.

Fixpoint mapSet {V} (m : JsMap V) (key : string) (v : V) : JsMap V :=
  match m with
  | [] => [(key, v)]
  | (k, old) :: rest =>
      if (k =? key)%string then (k, v) :: rest else (k, old) :: mapSet rest key v
  end.

Fixpoint mapDelete {V} (m : JsMap V) (key : string) : JsMap V :=
  match m with
  | [] => []
  | (k, v) :: rest =>
      if (k =? key)%string then mapDelete rest key else (k, v) :: mapDelete rest key
  end.

Module BlogCache.

Definition CACHE_TTL : Z := 5 * 60 * 1000.

Record CacheEntry (T : Type) : Type := {
  data : T;
  timestamp : Z
}.
Arguments data {T} _.
Arguments timestamp {T} _.

(** [getCachedData]: the value returned and the cache afterwards.  [now] is
    [Date.now()]. *)
Definition getCachedData {T} (now : Z) (key : string) (cache : JsMap (CacheEntry T))
  : option T * JsMap (CacheEntry T) :=
  match mapGet cache key with
  | None => (None, cache)
  | Some entry =>
      let isExpired := now - timestamp entry >? CACHE_TTL in
      if isExpired then (None, mapDelete cache key)
      else (Some (data entry), cache)
  end.

Definition setCachedData {T} (now : Z) (key : string) (value : T)
  (cache : JsMap (CacheEntry T)) : JsMap (CacheEntry T) :=
  mapSet cache key {| data := value; timestamp := now |}.

Definition clearBlogCache {T} (cache : JsMap (CacheEntry T)) : JsMap (CacheEntry T) :=
  [].

End BlogCache.

(* ================================================================= *)
(** ** lib/blog-queries.ts: language fallback and pages *)

(** [Array.prototype.slice(start, end)] on integers: a negative index counts
    from the end, and both are clamped to the array. *)
Definition sliceIndex (len k : Z) : Z :=
  if k <? 0 then Z.max (len + k) 0 else Z.min k len.

Definition jsSlice {A} (l : list A) (start end_ : Z) : list A :=
  let len := Z.of_nat (List.length l) in
  let from := sliceIndex len start in
  let to := sliceIndex len end_ in
  firstn (Z.to_nat (to - from)) (skipn (Z.to_nat from) l).

Module Blog.

Section Posts.
Context `{Runtime}.

(** A [BlogPost], of [lib/types/blog.ts], is read through its [id] and
    through [language?.code]. *)
Variable BlogPost : Type.
Variable postId : BlogPost -> string.
Variable languageCode : BlogPost -> option string.

Definition codeIs (post : BlogPost) (code : string) : bool :=
  match languageCode post with
  | Some c => (c =? code)%string
  | None => false
  end.

(** [limit] is a number or [undefined]; [!limit] holds of [undefined] and
    of 0. *)
Definition limitGiven (limit : option Z) : option Z :=
  match limit with
  | Some n => if n =? 0 then None else Some n
  | None => None
  end.

Definition filterPostsWithFallback (posts : list BlogPost) (requestedLocale : string)
  (limit : option Z) : list BlogPost :=
  let normalizedLocale := String_toUpperCase requestedLocale in
  let postsInRequestedLanguage :=
    filter (fun post => codeIs post normalizedLocale) posts in
  match limitGiven limit with
  | None => postsInRequestedLanguage
  | Some n =>
      if Z.of_nat (List.length postsInRequestedLanguage) >=? n
      then jsSlice postsInRequestedLanguage 0 n
      else
        let fallbackPosts :=
          filter (fun post =>
                    codeIs post "ES"
                    && negb (existsb (fun p => (postId p =? postId post)%string)
                               postsInRequestedLanguage))
            posts in
        let combinedPosts := (postsInRequestedLanguage ++ fallbackPosts)%list in
        jsSlice combinedPosts 0 n
  end.

(** The posts in the requested language, upper-cased as the filter does. *)
Definition postsInLanguage (posts : list BlogPost) (requestedLocale : string)
  : list BlogPost :=
  filter (fun post => codeIs post (String_toUpperCase requestedLocale)) posts.

(** [const requestedLanguage = variables.language || 'ES']. *)
Definition requestedLanguageOf (language : option string) : string :=
  match language with
  | Some l => if (l =? "")%string then "ES" else l
  | None => "ES"
  end.

(** The statement of [getBlogPosts] that filters what the request returned,
    [filterPostsWithFallback(data.posts.nodes, requestedLanguage)]: two
    arguments, so that [limit] is [undefined]. *)
Definition allFilteredPostsOf (fetched : list BlogPost) (language : option string)
  : list BlogPost :=
  let requestedLanguage := requestedLanguageOf language in
  filterPostsWithFallback fetched requestedLanguage None.

(** Numbers that can be [NaN]. *)
Definition JsInt : Type := option Z.

(** [parseInt(text, 10)] and [Number.prototype.toString], of the runtime. *)
Variable parseInt10 : string -> JsInt.
Variable numberToString : JsInt -> string.

Record PageInfo : Type := {
  hasNextPage : bool;
  hasPreviousPage : bool;
  startCursor : string;
  endCursor : option string
}.

Record BlogPostsResponse : Type := {
  nodes : list BlogPost;
  pageInfo : PageInfo
}.

(** The fields of [BlogQueryVariables] that the page depends on. *)
Record PageVariables : Type := {
  first : option Z;
  after : option string
}.

(** [const postsPerPage = variables.first || 9]. *)
Definition postsPerPageOf (variables : PageVariables) : Z :=
  match first variables with
  | Some n => if n =? 0 then 9 else n
  | None => 9
  end.

(** [const offset = variables.after ? parseInt(variables.after, 10) : 0]. *)
Definition offsetOf (variables : PageVariables) : JsInt :=
  match after variables with
  | Some cursor => if (cursor =? "")%string then Some 0 else parseInt10 cursor
  | None => Some 0
  end.

(** The statements of [getBlogPosts] after the posts are at hand: from the
    offset of the cursor to the response.  A [NaN] offset slices nothing and
    compares false. *)
Definition pageOf (allFilteredPosts : list BlogPost) (variables : PageVariables)
  : BlogPostsResponse :=
  let postsPerPage := postsPerPageOf variables in
  let offset := offsetOf variables in
  let length := Z.of_nat (List.length allFilteredPosts) in
  let paginatedPosts :=
    match offset with
    | Some o => jsSlice allFilteredPosts o (o + postsPerPage)
    | None => jsSlice allFilteredPosts 0 0
    end in
  let nextOffset : JsInt := option_map (fun o => o + postsPerPage) offset in
  let hasNextPage :=
    match nextOffset with
    | Some next => next <? length
    | None => false
    end in
  {| nodes := paginatedPosts;
     pageInfo :=
       {| hasNextPage := hasNextPage;
          hasPreviousPage := match offset with Some o => o >? 0 | None => false end;
          startCursor := numberToString offset;
          endCursor := if hasNextPage then Some (numberToString nextOffset) else None |} |}.

End Posts.

End Blog.

(** Sample posts: an identifier and a language code. *)
Definition samplePosts : list (string * option string) :=
  [("1", Some "CA"); ("2", Some "ES"); ("3", Some "CA");
   ("4", Some "EN"); ("5", Some "ES"); ("6", None)].

(** Decimal numerals, to write and to read a cursor: [toString] of an
    integer, and [parseInt] in base 10, which skips white space, reads a sign
    and the digits that follow, and is [NaN] without a digit. *)
Module Numbers.

Fixpoint digitsOf (fuel : nat) (n : Z) (acc : string) : string :=
  match fuel with
  | O => acc
  | S fuel' =>
      let acc' := String (Engine.charOf (48 + n mod 10)) acc in
      if n / 10 =? 0 then acc' else digitsOf fuel' (n / 10) acc'
  end.

Definition toString (n : option Z) : string :=
  match n with
  | None => "NaN"
  | Some k =>
      if k <? 0
      then "-" ++ digitsOf (S (Z.to_nat (Z.log2 (- k)))) (- k) ""
      else digitsOf (S (Z.to_nat (Z.log2 k))) k ""
  end.

Definition parseInt10 (text : string) : option Z :=
  let s := Engine.trimStart text in
  let '(negative, s1) :=
    match s with
    | String c r =>
        if Engine.codeOf c =? 45 then (true, r)
        else if Engine.codeOf c =? 43 then (false, r)
        else (false, s)
    | EmptyString => (false, s)
    end in
  let '(value, count, _) := Engine.takeDigits s1 0 0 in
  if count =? 0 then None else Some (if negative then - value else value).

End Numbers.

Definition samplePostId (post : string * option string) : string := fst post.

Definition samplePostLanguage (post : string * option string) : option string :=
  snd post.

(* ================================================================= *)
(** ** lib/blog-queries.ts: text *)

Module Text.

Definition isOpen (c : ascii) : bool := Engine.codeOf c =? 60.

Definition isClose (c : ascii) : bool := Engine.codeOf c =? 62.

(** Whether a [>] occurs in the text. *)
Fixpoint containsClose (s : string) : bool :=
  match s with
  | EmptyString => false
  | String c r => isClose c || containsClose r
  end.

(** [html.replace(/<[^>]*>/g, '')].  The pattern matches at a [<] that has a
    [>] somewhere after it, and then runs to the first such [>]; a [<] with
    no [>] after it stays.  [inTag] says that a match is under way. *)
Fixpoint removeTagsFrom (inTag : bool) (s : string) : string :=
  match s with
  | EmptyString => EmptyString
  | String c r =>
      if inTag
      then (if isClose c then removeTagsFrom false r else removeTagsFrom true r)
      else if isOpen c && containsClose r then removeTagsFrom true r
           else String c (removeTagsFrom false r)
  end.

Definition removeTags (html : string) : string := removeTagsFrom false html.

(** Whether the pattern [/<[^>]*>/] matches somewhere in the text. *)
Fixpoint hasTag (s : string) : bool :=
  match s with
  | EmptyString => false
  | String c r => (isOpen c && containsClose r) || hasTag r
  end.

(** [text.substring(0, n)]. *)
Fixpoint takeChars (n : nat) (s : string) : string :=
  match n, s with
  | O, _ => EmptyString
  | S _, EmptyString => EmptyString
  | S k, String c r => String c (takeChars k r)
  end.

Section WithRuntime.
Context `{Runtime}.

Definition stripHtml (html : string) : string :=
  String_trim (removeTags html).

(** [maxLength] is 150 when the caller gives none. *)
Definition truncateText (text : string) (maxLength : Z) : string :=
  let stripped := stripHtml text in
  if Z.of_nat (String.length stripped) <=? maxLength then stripped
  else String_trim (takeChars (Z.to_nat maxLength) stripped) ++ "...".

End WithRuntime.

End Text.

(** A script tag wrapped around a broken one. *)
Definition nestedMarkup : string := "<scr<script>ipt>alert(1)</script>".

(* ================================================================= *)
(** ** The session helpers that share a file with the discount helpers *)

Module Sessions.

Definition displayOrder : list string :=
  ["single"; "pack"; "voucher"; "gift"; "private"].

Section Grouping.

(** A [PublicSessionData] is read through [sessionType], which can be
    missing; [toLowerCase] is the runtime's. *)
Variable PublicSessionData : Type.
Variable sessionType : PublicSessionData -> option string.
Variable toLowerCase : string -> string.

(** [(session.sessionType || 'single').toLowerCase()]. *)
Definition typeOf (session : PublicSessionData) : string :=
  toLowerCase match sessionType session with
              | Some t => if (t =? "")%string then "single" else t
              | None => "single"
              end.

(** One turn of the loop over the sessions.  [push] changes the array that
    the map holds.  The last case, a map without the key [single], is where
    the source would throw; the map is built with that key. *)
Definition addSession (groups : JsMap (list PublicSessionData))
  (session : PublicSessionData) : JsMap (list PublicSessionData) :=
  let type := typeOf session in
  match mapGet groups type with
  | Some group => mapSet groups type (group ++ [session])%list
  | None =>
      match mapGet groups "single" with
      | Some group => mapSet groups "single" (group ++ [session])%list
      | None => groups
      end
  end.

Definition groupSessionsByType (sessions : list PublicSessionData)
  : JsMap (list PublicSessionData) :=
  let groups := fold_left (fun g type => mapSet g type []) displayOrder [] in
  fold_left addSession sessions groups.

(** The group a session belongs to: its type when that is one of the five,
    [single] otherwise. *)
Definition groupOf (session : PublicSessionData) : string :=
  if existsb (String.eqb (typeOf session)) displayOrder
  then typeOf session
  else "single".

End Grouping.

End Sessions.

Definition sampleSessions : list (string * option string) :=
  [("a", Some "PACK"); ("b", None); ("c", Some "retreat");
   ("d", Some "Pack"); ("e", Some "")].

(** Lower case, on ASCII. *)
Definition lowerChar (c : ascii) : ascii :=
  let n := Engine.codeOf c in
  if (65 <=? n) && (n <=? 90) then Engine.charOf (n + 32) else c.

Fixpoint toLowerCaseAscii (s : string) : string :=
  match s with
  | EmptyString => EmptyString
  | String c r => String (lowerChar c) (toLowerCaseAscii r)
  end.

(* ================================================================= *)
(** ** stores/discountStore.ts, the first version *)

Module LegacyStore.

(** [Discount] of the first [types/discount.ts]. *)
Record Discount : Type := {
  id : string;
  code : string;
  percentage : Q;
  valid_until : string;
  usage_limit : Z;
  usage_count : Z;
  is_active : bool;
  one_per_user : bool
}.

Definition discountPercentage (applied : option Discount) : Q :=
  match applied with
  | Some discount => percentage discount
  | None => 0%Q
  end.

Definition isOneTimeUse (applied : option Discount) : bool :=
  match applied with
  | Some discount => one_per_user discount
  | None => false
  end.

Definition remainingUses (applied : option Discount) : option Z :=
  match applied with
  | None => None
  | Some discount =>
      if usage_limit discount =? 0 then None
      else Some (usage_limit discount - usage_count discount)
  end.

Definition isDiscountExpired `{Runtime} (now : Z) (discount : Discount) : bool :=
  if (valid_until discount =? "")%string then false
  else match Date_parse (valid_until discount) with
       | None => false
       | Some expirationDate => now >? expirationDate
       end.

Definition getDiscountCalculation (sessionPrice : Q) (applied : option Discount)
  : DiscountCalculation :=
  match applied with
  | None =>
      {| originalPrice := sessionPrice; discountAmount := 0;
         finalPrice := sessionPrice; percentageApplied := 0 |}
  | Some discount =>
      let discountAmount :=
        (Math_round ((sessionPrice * percentage discount) / 100 * 100) / 100)%Q in
      let finalPrice := (Math_round ((sessionPrice - discountAmount) * 100) / 100)%Q in
      {| originalPrice := sessionPrice; discountAmount := discountAmount;
         finalPrice := finalPrice; percentageApplied := percentage discount |}
  end.

End LegacyStore.

(** A discount of the current schema that carries the data of one of the
    first schema: a percentage, active, with the same end and counters. *)
Definition carriesLegacy (current : Discount) (legacy : LegacyStore.Discount) : Prop :=
  type current = Percentage
  /\ amount current = LegacyStore.percentage legacy
  /\ validUntil current = Some (LegacyStore.valid_until legacy)
  /\ maxUses current = Some (LegacyStore.usage_limit legacy)
  /\ currentUses current = LegacyStore.usage_count legacy
  /\ status current = Active.

Definition legacySummer20 : LegacyStore.Discount :=
  {| LegacyStore.id := "1";
     LegacyStore.code := "SUMMER20";
     LegacyStore.percentage := 20;
     LegacyStore.valid_until := "2025-12-31T23:59:59Z";
     LegacyStore.usage_limit := 100;
     LegacyStore.usage_count := 10;
     LegacyStore.is_active := false;
     LegacyStore.one_per_user := false |}.

(* ================================================================= *)
(** * Properties *)

(** ** The error taxonomy *)

Lemma isRecoverableError_string (s : string) :
  isRecoverableError s = true <-> s = "INVALID_CODE" \/ s = "NETWORK_ERROR".
Proof.
  unfold isRecoverableError.
  rewrite orb_true_iff, !String.eqb_eq. reflexivity.
Qed.

(** C7. [isRecoverableError] answers true for INVALID_CODE and NETWORK_ERROR
    and for no other category, in the taxonomy of [discount-errors.ts] and in
    the one of the validation client. *)
Theorem isRecoverableError_exactly_two :
  (forall e : DiscountErrorType,
      isRecoverableError (errorTag e) = true <-> e = INVALID_CODE \/ e = NETWORK_ERROR)
  /\ (forall e : Validation.DiscountErrorType,
         isRecoverableError (Validation.errorTag e) = true
         <-> e = Validation.INVALID_CODE \/ e = Validation.NETWORK_ERROR)
  /\ (forall e : DiscountErrorType,
         isRecoverableError (errorTag e) =
         match e with INVALID_CODE | NETWORK_ERROR => true | _ => false end).
Proof.
  repeat split; try (destruct e; reflexivity).
  - intros Hrec. destruct e; cbn in Hrec; try discriminate; auto.
  - intros [-> | ->]; reflexivity.
  - intros Hrec. destruct e; cbn in Hrec; try discriminate; auto.
  - intros [-> | ->]; reflexivity.
Qed.

(** ** Derived reads *)

(** C10. For an applied discount, [remainingUses] is null when the cap is
    null and also when the cap is 0, and [maxUses - currentUses] for every
    other cap. *)
Theorem remainingUses_zero_cap_is_unlimited (st : Store) (d : Discount)
  (Happlied : appliedDiscount st = Some d) :
  (maxUses d = None -> remainingUses st = None)
  /\ (maxUses d = Some 0 -> remainingUses st = None)
  /\ (forall m, maxUses d = Some m -> m <> 0 ->
                remainingUses st = Some (m - currentUses d)).
Proof.
  unfold remainingUses. rewrite Happlied.
  repeat split.
  - intros ->. reflexivity.
  - intros ->. reflexivity.
  - intros m -> Hm. destruct (Z.eqb_spec m 0); [contradiction | reflexivity].
Qed.

Lemma remainingUses_zero_cap_is_unlimited_witness :
  remainingUses (withDiscount summer20) = Some 90
  /\ remainingUses (withDiscount zeroCap) = None.
Proof.
  split.
  - destruct (remainingUses_zero_cap_is_unlimited (withDiscount summer20) summer20 eq_refl)
      as (_ & _ & Hcapped).
    apply (Hcapped 100); [reflexivity | discriminate].
  - destruct (remainingUses_zero_cap_is_unlimited (withDiscount zeroCap) zeroCap eq_refl)
      as (_ & Hzero & _).
    apply Hzero. reflexivity.
Defined.

(** ** The store *)

Section StoreProperties.
Context `{Runtime}.

Lemma clearDiscount_initial (st : Store) : clearDiscount st = initialStore.
Proof. reflexivity. Qed.

(** C6. [setDiscountCode] stores the trimmed, uppercased input and leaves the
    applied discount alone; with an error set it clears the error and puts the
    status back to idle, and with no error set it leaves error and status as
    they were. *)
Theorem setDiscountCode_normalises_and_dismisses_error (raw : string) (st : Store) :
  let st' := setDiscountCode raw st in
  discountCode st' = String_toUpperCase (String_trim raw)
  /\ appliedDiscount st' = appliedDiscount st
  /\ (discountError st <> None ->
      discountError st' = None /\ discountState st' = Idle)
  /\ (discountError st = None ->
      discountError st' = discountError st /\ discountState st' = discountState st).
Proof.
  unfold setDiscountCode, sanitizeCode; cbn.
  destruct (discountError st) as [e |]; cbn.
  - split; [reflexivity |]. split; [reflexivity |]. split.
    + intros _. split; reflexivity.
    + discriminate.
  - split; [reflexivity |]. split; [reflexivity |]. split.
    + contradiction.
    + intros _. split; reflexivity.
Qed.

Lemma errorStatusAgree_initial : errorStatusAgree initialStore.
Proof.
  unfold errorStatusAgree; cbn. split; [discriminate | contradiction].
Qed.

Lemma errorStatusAgree_perform (st : Store) (a : Action) :
  errorStatusAgree st -> errorStatusAgree (perform st a).
Proof.
  unfold errorStatusAgree. intros Hinv.
  destruct a as [raw | | d | e | | now]; cbn.
  - unfold setDiscountCode; cbn.
    destruct (discountError st) as [e |] eqn:Herr; cbn.
    + split; [discriminate | contradiction].
    + exact Hinv.
  - split; [discriminate | contradiction].
  - split; [discriminate | contradiction].
  - split; [discriminate | reflexivity].
  - split; [discriminate | contradiction].
  - unfold revalidateStoredDiscount.
    destruct (appliedDiscount st) as [stored |]; [| exact Hinv].
    destruct (isDiscountExpired now stored); [| exact Hinv].
    cbn. split; [discriminate | contradiction].
Qed.

Lemma errorStatusAgree_performAll (actions : list Action) :
  forall st, errorStatusAgree st -> errorStatusAgree (performAll actions st).
Proof.
  unfold performAll.
  induction actions as [| a rest IH]; intros st Hinv; cbn.
  - exact Hinv.
  - apply IH, errorStatusAgree_perform, Hinv.
Qed.

(** C9. After any finite sequence of store actions from the initial state,
    the status is [error] exactly when the error atom is not null. *)
Theorem status_is_error_iff_error_set (actions : list Action) :
  let st := performAll actions initialStore in
  discountState st = Error <-> discountError st <> None.
Proof.
  exact (errorStatusAgree_performAll actions initialStore errorStatusAgree_initial).
Qed.

Lemma endInPastb_spec (now : Z) (validUntil : option string) :
  endInPastb now validUntil = true <-> endInPast now validUntil.
Proof.
  unfold endInPastb, endInPast.
  destruct (validityEnd validUntil) as [t |].
  - rewrite Z.ltb_lt. split.
    + intros Hlt. exists t. auto.
    + intros (t' & Heq & Hlt). injection Heq as <-. exact Hlt.
  - split; [discriminate | intros (t' & Heq & _); discriminate].
Qed.

(** The date test of the source, which skips the empty string before
    building a [Date], is the test on the validity end. *)
Lemma date_guard_endInPastb (now : Z) (validUntil : option string) :
  match validUntil with
  | None => false
  | Some s =>
      if (s =? "")%string then false
      else match Date_parse s with
           | None => false
           | Some t => t <? now
           end
  end = endInPastb now validUntil.
Proof.
  unfold endInPastb, validityEnd.
  destruct validUntil as [s |]; [| reflexivity].
  destruct (String.eqb_spec s "") as [-> | _]; [| reflexivity].
  rewrite Date_parse_empty. reflexivity.
Qed.

Lemma isDiscountExpired_unfold (now : Z) (d : Discount) :
  isDiscountExpired now d =
  match status d with
  | Active => endInPastb now (validUntil d)
  | _ => true
  end.
Proof.
  unfold isDiscountExpired.
  destruct (status d); try reflexivity.
  rewrite <- date_guard_endInPastb.
  destruct (validUntil d) as [s |]; [| reflexivity].
  destruct (s =? "")%string; [reflexivity |].
  destruct (Date_parse s) as [t |]; [| reflexivity].
  rewrite Z.gtb_ltb. reflexivity.
Qed.

Lemma isDiscountExpired_rule (now : Z) (d : Discount) :
  isDiscountExpired now d = true <-> expiredByRule now d.
Proof.
  rewrite isDiscountExpired_unfold. unfold expiredByRule.
  destruct (status d) eqn:Hstatus.
  - rewrite endInPastb_spec. split.
    + auto.
    + intros [Hs | [Hs | Hpast]]; [discriminate | discriminate | exact Hpast].
  - split; auto.
  - split; auto.
Qed.

(** C5. A stored discount counts as expired exactly when its status is
    inactive or expired or its validity end is in the past, either alone being
    enough; [revalidateStoredDiscount] resets the store as [clearDiscount]
    does for exactly those discounts and leaves the store as it is for every
    other one, and when nothing is stored. *)
Theorem expiry_rule_and_revalidation (now : Z) (d : Discount) :
  (isDiscountExpired now d = true <-> expiredByRule now d)
  /\ (forall st, appliedDiscount st = Some d ->
        (expiredByRule now d ->
         revalidateStoredDiscount now st = clearDiscount st
         /\ revalidateStoredDiscount now st = initialStore)
        /\ (~ expiredByRule now d -> revalidateStoredDiscount now st = st))
  /\ (forall st, appliedDiscount st = None -> revalidateStoredDiscount now st = st).
Proof.
  split; [apply isDiscountExpired_rule |].
  split.
  - intros st Hstored. unfold revalidateStoredDiscount. rewrite Hstored.
    split.
    + intros Hrule. apply isDiscountExpired_rule in Hrule. rewrite Hrule.
      split; reflexivity.
    + intros Hnot.
      destruct (isDiscountExpired now d) eqn:Hexp; [| reflexivity].
      exfalso. apply Hnot, isDiscountExpired_rule, Hexp.
  - intros st Hnone. unfold revalidateStoredDiscount. rewrite Hnone. reflexivity.
Qed.

End StoreProperties.

Lemma setDiscountCode_normalises_and_dismisses_error_witness :
  let st := @setError INVALID_CODE initialStore in
  let st' := @setDiscountCode Engine.runtime "  winter15  " st in
  discountCode st' = "WINTER15"
  /\ discountError st' = None
  /\ discountState st' = Idle.
Proof.
  destruct (@setDiscountCode_normalises_and_dismisses_error Engine.runtime
              "  winter15  " (setError INVALID_CODE initialStore))
    as (Hcode & _ & Hdismiss & _).
  split; [exact Hcode |].
  apply Hdismiss. discriminate.
Defined.

Lemma expiry_rule_and_revalidation_witness :
  @revalidateStoredDiscount Engine.runtime newYear2026 (withDiscount summer20)
  = initialStore
  /\ @revalidateStoredDiscount Engine.runtime 0 (withDiscount summer20)
     = withDiscount summer20.
Proof.
  split.
  - destruct (@expiry_rule_and_revalidation Engine.runtime newYear2026 summer20)
      as (_ & Hstored & _).
    destruct (Hstored (withDiscount summer20) eq_refl) as (Hexpired & _).
    apply Hexpired.
    right; right. exists 1767225599000. split; [reflexivity | reflexivity].
  - destruct (@expiry_rule_and_revalidation Engine.runtime 0 summer20)
      as (Hiff & Hstored & _).
    destruct (Hstored (withDiscount summer20) eq_refl) as (_ & Hkept).
    apply Hkept. intros Hrule. apply Hiff in Hrule. discriminate Hrule.
Defined.

(** ** The error classifier *)

Section ClassifierProperties.
Context `{Runtime}.

Lemma mapToErrorType_classifyInOrder (now : Z)
  (record : option Validation.DiscountCodeNode) (reason : option string) :
  Validation.mapToErrorType now record reason = classifyInOrder now record.
Proof.
  unfold Validation.mapToErrorType, classifyInOrder.
  destruct record as [r |]; [| reflexivity].
  rewrite date_guard_endInPastb.
  destruct (Validation.status r); try reflexivity.
  cbn [orb].
  destruct (endInPastb now (Validation.validUntil r)); [reflexivity |].
  destruct (Validation.maxUses r) as [cap |]; [| reflexivity].
  rewrite Z.gtb_ltb, Z.geb_leb. reflexivity.
Qed.

Lemma legacy_mapToErrorType_classifyInOrder (now : Z)
  (record : option ValidationLegacy.DiscountCodeNode) :
  ValidationLegacy.mapToErrorType now record = legacyClassifyInOrder now record.
Proof.
  unfold ValidationLegacy.mapToErrorType, legacyClassifyInOrder.
  destruct record as [r |]; [| reflexivity].
  rewrite <- (date_guard_endInPastb now (Some (ValidationLegacy.validUntil r))).
  rewrite Z.gtb_ltb, Z.geb_leb. reflexivity.
Qed.

(** C4. [mapToErrorType] follows the decision order, first match wins: no
    record, INVALID_CODE; inactive flag, INACTIVE; expired flag or validity
    end passed, EXPIRED; positive cap reached, NO_USES_LEFT; otherwise
    UNKNOWN_ERROR.  A record that is inactive and past its validity end is
    INACTIVE.  The first version of the classifier follows the same order on
    its schema. *)
Theorem mapToErrorType_first_match_wins (now : Z)
  (record : option Validation.DiscountCodeNode) (reason : option string) :
  Validation.mapToErrorType now record reason = classifyInOrder now record
  /\ (record = None ->
      Validation.mapToErrorType now record reason = Validation.INVALID_CODE)
  /\ (forall r, record = Some r ->
        Validation.status r = Inactive ->
        endInPast now (Validation.validUntil r) ->
        Validation.mapToErrorType now record reason = Validation.INACTIVE)
  /\ (forall r, record = Some r ->
        Validation.status r = Active ->
        endInPast now (Validation.validUntil r) ->
        Validation.mapToErrorType now record reason = Validation.EXPIRED)
  /\ (forall legacy,
        ValidationLegacy.mapToErrorType now legacy = legacyClassifyInOrder now legacy)
  /\ (forall r,
        ValidationLegacy.isActive r = false ->
        endInPast now (Some (ValidationLegacy.validUntil r)) ->
        ValidationLegacy.mapToErrorType now (Some r) = Validation.INACTIVE).
Proof.
  split; [apply mapToErrorType_classifyInOrder |].
  rewrite mapToErrorType_classifyInOrder. unfold classifyInOrder.
  split; [intros ->; reflexivity |].
  split; [| split; [| split]].
  - intros r -> Hstatus _. rewrite Hstatus. reflexivity.
  - intros r -> Hstatus Hpast. rewrite Hstatus.
    apply endInPastb_spec in Hpast. rewrite Hpast. reflexivity.
  - apply legacy_mapToErrorType_classifyInOrder.
  - intros r Hinactive _.
    rewrite legacy_mapToErrorType_classifyInOrder. unfold legacyClassifyInOrder.
    rewrite Hinactive. reflexivity.
Qed.

End ClassifierProperties.

Lemma mapToErrorType_first_match_wins_witness :
  @Validation.mapToErrorType Engine.runtime newYear2026
    (Some lapsedAndInactive) (Some "inactive")
  = Validation.INACTIVE.
Proof.
  destruct (@mapToErrorType_first_match_wins Engine.runtime newYear2026
              (Some lapsedAndInactive) (Some "inactive"))
    as (_ & _ & Hinactive & _).
  apply (Hinactive lapsedAndInactive eq_refl eq_refl).
  exists 1767225599000. split; reflexivity.
Defined.

(** ** The calculation *)

Local Open Scope Q_scope.

Lemma Math_round_comp (x y : Q) : x == y -> Math_round x = Math_round y.
Proof.
  intros Hxy. unfold Math_round. f_equal.
  apply Qfloor_comp. rewrite Hxy. reflexivity.
Qed.

Lemma Math_round_inject_Z (n : Z) : Math_round (inject_Z n) = inject_Z n.
Proof.
  unfold Math_round. f_equal.
  unfold Qfloor, Qplus, inject_Z; cbn.
  symmetry. apply (Z.div_unique (n * 2 + 1) 2 n 1); lia.
Qed.

(** [Math.round] is within a half of its argument, the upper end included. *)
Lemma Math_round_nearest (x : Q) :
  x - (1 # 2) < Math_round x /\ Math_round x <= x + (1 # 2).
Proof.
  unfold Math_round.
  pose proof (Qfloor_le (x + (1 # 2))) as Hle.
  pose proof (Qlt_floor (x + (1 # 2))) as Hlt.
  rewrite inject_Z_plus in Hlt.
  change (inject_Z 1) with 1 in Hlt.
  split; lra.
Qed.

Lemma wholeHundredths_inject_Z_div (k : Z) : wholeHundredths (inject_Z k / 100).
Proof. exists k. reflexivity. Qed.

Lemma wholeHundredths_comp (x y : Q) : x == y -> wholeHundredths x -> wholeHundredths y.
Proof.
  intros Hxy [k Hk]. exists k. rewrite <- Hxy. exact Hk.
Qed.

(** Rounding to cents gives back an amount that is already in cents. *)
Lemma round_to_cents_exact (x : Q) :
  wholeHundredths x -> Math_round (x * 100) / 100 == x.
Proof.
  intros [k Hk].
  rewrite (Math_round_comp (x * 100) (inject_Z k)).
  - rewrite Math_round_inject_Z. rewrite Hk. reflexivity.
  - rewrite Hk. field.
Qed.

Lemma wholeHundredths_minus (x y : Q) :
  wholeHundredths x -> wholeHundredths y -> wholeHundredths (x - y).
Proof.
  intros [k Hk] [l Hl]. exists (k - l)%Z.
  rewrite Hk, Hl. unfold Zminus. rewrite inject_Z_plus, inject_Z_opp. field.
Qed.

Lemma discountAmount_percentage (price : Q) (st : Store) (d : Discount) :
  appliedDiscount st = Some d -> type d = Percentage ->
  discountAmount (getDiscountCalculation price st)
  = Math_round (price * amount d / 100 * 100) / 100.
Proof.
  intros Happlied Htype. unfold getDiscountCalculation.
  rewrite Happlied, Htype. reflexivity.
Qed.

Lemma discountAmount_fixed (price : Q) (st : Store) (d : Discount) :
  appliedDiscount st = Some d -> type d = Fixed ->
  discountAmount (getDiscountCalculation price st) = Qmin (amount d) price.
Proof.
  intros Happlied Htype. unfold getDiscountCalculation.
  rewrite Happlied, Htype. reflexivity.
Qed.

Lemma finalPrice_unfold (price : Q) (st : Store) (d : Discount) :
  appliedDiscount st = Some d ->
  finalPrice (getDiscountCalculation price st)
  = Math_round ((price - discountAmount (getDiscountCalculation price st)) * 100) / 100.
Proof.
  intros Happlied. unfold getDiscountCalculation.
  rewrite Happlied. destruct (type d); reflexivity.
Qed.

Lemma originalPrice_unfold (price : Q) (st : Store) :
  originalPrice (getDiscountCalculation price st) = price.
Proof.
  unfold getDiscountCalculation.
  destruct (appliedDiscount st) as [d |]; [destruct (type d) |]; reflexivity.
Qed.

(** The one-off calculation and the computed store run the same body. *)
Lemma getDiscountCalculation_calculateDiscountAmount (price : Q) (st : Store) :
  getDiscountCalculation price st = calculateDiscountAmount price (appliedDiscount st).
Proof. reflexivity. Qed.

Lemma wholeHundredths_inject_Z (n : Z) : wholeHundredths (inject_Z n).
Proof. exists (n * 100)%Z. rewrite inject_Z_mult. field. Qed.

Local Close Scope Q_scope.

(** ** The calculation on doubles *)

(** C2. On the doubles of the code the percentage branch loses a cent at a
    tie.  The doubles 0.25 and 58 are exactly 1/4 and 58, so 58 percent of a
    price of 0.25 is 14.5 cents exactly, which rounds to 15 cents; the code
    returns 0.14, that is 14 cents, from [getDiscountCalculation] and from the
    computed store alike.  The product [0.25 * 58] is 14.5 and [Math.round] of
    it is 15, but the source divides by 100 and multiplies by 100 before it
    rounds, and that round trip gives a double below 14.5.  In the same way 5
    percent of 20.50 comes out as 1.02 where 102.5 cents round to 103. *)
Theorem discountAmount_percentage_tie_rounds_down :
  (Binary64.toQ 0.25 = Some (1 # 4)%Q
   /\ Binary64.toQ 58 = Some (58 # 1)%Q
   /\ ((1 # 4) * 100 * 58 / 100 == 29 # 2)%Q
   /\ roundHalfAwayFromZero (29 # 2)%Q = 15
   /\ Binary64.discountAmount
        (Binary64.getDiscountCalculation 0.25 (Some (Binary64.percentOff 58)))
      = (14 / 100)%float
   /\ Binary64.discountAmount
        (Binary64.calculateDiscountAmount 0.25 (Some (Binary64.percentOff 58)))
      = (14 / 100)%float
   /\ Binary64.Math_round (14 / 100 * 100)%float = 14%float)
  /\ ((0.25 * 58)%float = 14.5%float
      /\ Binary64.Math_round 14.5 = 15%float
      /\ (14.5 / 100 * 100 <? 14.5)%float = true
      /\ Binary64.Math_round (14.5 / 100 * 100)%float = 14%float)
  /\ (Binary64.toQ 20.5 = Some (41 # 2)%Q
      /\ Binary64.toQ 5 = Some (5 # 1)%Q
      /\ ((41 # 2) * 100 * 5 / 100 == 205 # 2)%Q
      /\ roundHalfAwayFromZero (205 # 2)%Q = 103
      /\ Binary64.discountAmount
           (Binary64.getDiscountCalculation 20.5 (Some (Binary64.percentOff 5)))
         = (102 / 100)%float).
Proof.
  repeat split; vm_compute; reflexivity.
Qed.

(** C3. On the doubles of the code the amounts are not exact.  For a price of
    19.99 and 20 percent off the code returns a discount of 4 and a final
    price of 15.99, and the sum of these two doubles is above the price,
    19.990000000000002.  For a price of 0.25 and 58 percent off it returns 0.14
    and 0.11, where rounding 14.5 cents half away from zero gives a discount
    of 15 cents and leaves 10. *)
Theorem calculation_is_not_exact_on_doubles :
  (let c := Binary64.getDiscountCalculation 19.99 (Some (Binary64.percentOff 20)) in
   Binary64.originalPrice c = 19.99%float
   /\ Binary64.discountAmount c = 4%float
   /\ Binary64.finalPrice c = 15.99%float
   /\ (Binary64.finalPrice c + Binary64.discountAmount c)%float
      = 19.990000000000002%float
   /\ (Binary64.finalPrice c + Binary64.discountAmount c
       =? Binary64.originalPrice c)%float = false
   /\ (Binary64.originalPrice c
       <? Binary64.finalPrice c + Binary64.discountAmount c)%float = true)
  /\ (let c := Binary64.getDiscountCalculation 0.25 (Some (Binary64.percentOff 58)) in
      Binary64.discountAmount c = (14 / 100)%float
      /\ Binary64.finalPrice c = (11 / 100)%float
      /\ Binary64.toQ 0.25 = Some (1 # 4)%Q
      /\ roundHalfAwayFromZero (25 * 58 / 100)%Q = 15
      /\ roundHalfAwayFromZero (25 - 15)%Q = 10).
Proof.
  cbv zeta. repeat split; vm_compute; reflexivity.
Qed.

(** ** The persisted discount *)

Section DecodeProperties.
Context `{Runtime}.

(** On the object of a [Discount], the untyped expiry test is the typed one. *)
Lemma isDiscountExpiredJs_discountToJs (now : Z) (d : Discount) :
  isDiscountExpiredJs now (discountToJs d) = Normal (isDiscountExpired now d).
Proof.
  unfold isDiscountExpiredJs, isDiscountExpired, discountToJs; cbn.
  destruct (status d); cbn; try reflexivity.
  destruct (validUntil d) as [s |]; cbn; [| reflexivity].
  destruct (s =? "")%string; cbn; [reflexivity |].
  destruct (Date_parse s); reflexivity.
Qed.

Lemma decode_unfold (now : Z) (str : string) :
  decode now str =
  Normal match JSON_parse str with
         | Throw _ => JNull
         | Normal parsed =>
             if truthy parsed
             then match isDiscountExpiredJs now parsed with
                  | Normal false => parsed
                  | _ => JNull
                  end
             else parsed
         end.
Proof.
  unfold decode, tryCatch, bindC.
  destruct (JSON_parse str) as [parsed | e]; [| reflexivity].
  destruct (truthy parsed); [| reflexivity].
  destruct (isDiscountExpiredJs now parsed) as [[|] | e]; reflexivity.
Qed.

(** The expiry test on a value that is not a record, or on a record without
    [status] and [validUntil]: no property to find, nothing expired. *)
Lemma isDiscountExpiredJs_not_record (now : Z) (parsed : JsValue) :
  isRecord parsed = false -> truthy parsed = true ->
  isDiscountExpiredJs now parsed = Normal false.
Proof.
  destruct parsed; intros Hrecord Htruthy; try discriminate; reflexivity.
Qed.

Lemma isDiscountExpiredJs_bare_record (now : Z) (fields : list (string * JsValue)) :
  lookupField fields "status" = JUndefined ->
  lookupField fields "validUntil" = JUndefined ->
  isDiscountExpiredJs now (JObj fields) = Normal false.
Proof.
  intros Hstatus Huntil. unfold isDiscountExpiredJs; cbn.
  rewrite Hstatus; cbn. rewrite Huntil; reflexivity.
Qed.

(** C8, amended. [decode] never throws, and what it returns is this and
    nothing else: null for a text that does not parse; for a text that parses,
    the parsed value itself when it is falsy or the expiry test says no, and
    null when the expiry test says yes or throws.  The shape of the parsed
    value plays no part: a value that is not a record (a number, a string, a
    boolean, an array) decodes to itself, and so does a record without
    [status] and [validUntil], whatever else it holds or lacks.  A parsed
    [Discount] decodes to null when expired and to itself otherwise. *)
Theorem decode_fails_soft (now : Z) (str : string) :
  decode now str
  = Normal match JSON_parse str with
           | Throw _ => JNull
           | Normal parsed =>
               if truthy parsed
               then match isDiscountExpiredJs now parsed with
                    | Normal false => parsed
                    | _ => JNull
                    end
               else parsed
           end
  /\ (exists v, decode now str = Normal v)
  /\ (forall e, JSON_parse str = Throw e -> decode now str = Normal JNull)
  /\ (forall parsed, JSON_parse str = Normal parsed ->
        decode now str = Normal parsed \/ decode now str = Normal JNull)
  /\ (forall parsed, JSON_parse str = Normal parsed -> truthy parsed = false ->
        decode now str = Normal parsed)
  /\ (forall parsed, JSON_parse str = Normal parsed ->
        isDiscountExpiredJs now parsed = Normal false ->
        decode now str = Normal parsed)
  /\ (forall parsed, JSON_parse str = Normal parsed -> truthy parsed = true ->
        isDiscountExpiredJs now parsed <> Normal false ->
        decode now str = Normal JNull)
  /\ (forall parsed, JSON_parse str = Normal parsed -> isRecord parsed = false ->
        decode now str = Normal parsed)
  /\ (forall fields, JSON_parse str = Normal (JObj fields) ->
        lookupField fields "status" = JUndefined ->
        lookupField fields "validUntil" = JUndefined ->
        decode now str = Normal (JObj fields))
  /\ (forall d, JSON_parse str = Normal (discountToJs d) ->
        decode now str
        = Normal (if isDiscountExpired now d then JNull else discountToJs d)).
Proof.
  split; [apply decode_unfold |].
  rewrite decode_unfold.
  split; [eexists; reflexivity |].
  split; [intros e ->; reflexivity |].
  repeat apply conj.
  - intros parsed ->.
    destruct (truthy parsed); [| left; reflexivity].
    destruct (isDiscountExpiredJs now parsed) as [[|] | e]; auto.
  - intros parsed -> ->. reflexivity.
  - intros parsed -> ->. destruct (truthy parsed); reflexivity.
  - intros parsed -> -> Hexpired.
    destruct (isDiscountExpiredJs now parsed) as [[|] | e]; try reflexivity.
    contradiction Hexpired. reflexivity.
  - intros parsed -> Hrecord.
    destruct (truthy parsed) eqn:Htruthy; [| reflexivity].
    rewrite (isDiscountExpiredJs_not_record now parsed Hrecord Htruthy).
    reflexivity.
  - intros fields -> Hstatus Huntil.
    rewrite (isDiscountExpiredJs_bare_record now fields Hstatus Huntil).
    reflexivity.
  - intros d ->. rewrite isDiscountExpiredJs_discountToJs.
    change (truthy (discountToJs d)) with true. cbv iota.
    destruct (isDiscountExpired now d); reflexivity.
Qed.

End DecodeProperties.

Lemma decode_fails_soft_witness :
  (@decode Engine.runtime newYear2026 unparsableRecord = Normal JNull)
  /\ (@decode Engine.runtime newYear2026 "42" = Normal (JNum 42)).
Proof.
  destruct (@decode_fails_soft Engine.runtime newYear2026 unparsableRecord)
    as (_ & _ & Hunparsable & _).
  destruct (@decode_fails_soft Engine.runtime newYear2026 "42")
    as (_ & _ & _ & _ & _ & _ & _ & Hplain & _).
  split.
  - apply (Hunparsable Engine.syntaxError). reflexivity.
  - apply (Hplain (JNum 42)); reflexivity.
Defined.

(** C8, as stated, fails: the stored text [42] decodes to the number 42, and
    a record that lost all fields but [code] decodes to that object; neither
    is null or a [Discount]. *)
Lemma decode_returns_what_is_not_a_discount :
  (@decode Engine.runtime newYear2026 "42" = Normal (JNum 42)
   /\ isNull (JNum 42) = false
   /\ hasDiscountShape (JNum 42) = false)
  /\ (@decode Engine.runtime newYear2026 truncatedRecord
      = Normal (JObj [("code", JStr "SUMMER20")])
      /\ isNull (JObj [("code", JStr "SUMMER20")]) = false
      /\ hasDiscountShape (JObj [("code", JStr "SUMMER20")]) = false).
Proof.
  repeat split; vm_compute; reflexivity.
Qed.

Lemma discountToJs_hasDiscountShape (d : Discount) :
  hasDiscountShape (discountToJs d) = true.
Proof.
  unfold hasDiscountShape, discountToJs; cbn.
  destruct (type d), (validUntil d), (maxUses d), (status d); reflexivity.
Qed.

(** ** The validation client *)

Section ClientProperties.
Context `{Runtime}.

(** What the call resolves to is decided by the request alone: the timer
    changes the flag of the controller and nothing else. *)
Lemma validateDiscountCode_resolved (graphqlQuery : Validation.GraphqlQuery)
  (startedAt : Z) (code : string) (subtotalCents : Q) :
  Validation.resolved
    (Validation.validateDiscountCode graphqlQuery startedAt code subtotalCents)
  = match graphqlQuery Validation.VALIDATE_DISCOUNT_CODE_QUERY
            {| Validation.v_code := String_toUpperCase (String_trim code);
               Validation.v_subtotalCents := subtotalCents |} with
    | Validation.NeverSettles => None
    | Validation.SettlesAt t (Validation.Fulfilled data) =>
        Some (Validation.onFulfilled (startedAt + t) data)
    | Validation.SettlesAt t (Validation.Rejected e) =>
        Some (Validation.onRejected e)
    end.
Proof.
  unfold Validation.validateDiscountCode.
  destruct (graphqlQuery _ _) as [t s |]; cbn; [| reflexivity].
  destruct (t <? Validation.TIMEOUT_MS); destruct s; reflexivity.
Qed.

Lemma onFulfilled_not_network_error (now : Z) (data : Validation.ValidateDiscountResponse) :
  Validation.r_error (Validation.onFulfilled now data) <> Some Validation.NETWORK_ERROR.
Proof.
  unfold Validation.onFulfilled.
  destruct (Validation.valid data), (Validation.discountCode data) as [dc |]; cbn;
    try discriminate.
  destruct (Validation.status dc); try discriminate.
  repeat match goal with |- context [if ?b then _ else _] => destruct b end;
    discriminate.
Qed.

(** The timeout result comes only from a request that was itself rejected. *)
Lemma timeoutResult_only_from_rejection (graphqlQuery : Validation.GraphqlQuery)
  (startedAt : Z) (code : string) (subtotalCents : Q) :
  Validation.resolved
    (Validation.validateDiscountCode graphqlQuery startedAt code subtotalCents)
  = Some Validation.timeoutResult ->
  exists t e,
    graphqlQuery Validation.VALIDATE_DISCOUNT_CODE_QUERY
      {| Validation.v_code := String_toUpperCase (String_trim code);
         Validation.v_subtotalCents := subtotalCents |}
    = Validation.SettlesAt t (Validation.Rejected e).
Proof.
  rewrite validateDiscountCode_resolved.
  destruct (graphqlQuery _ _) as [t [data | e] |]; intros Hres.
  - exfalso. injection Hres as Hres.
    apply (onFulfilled_not_network_error (startedAt + t) data).
    rewrite Hres. reflexivity.
  - exists t, e. reflexivity.
  - discriminate Hres.
Qed.

End ClientProperties.

(** C1. The five-second timer of [validateDiscountCode] does not bound the
    call.  With a backend that never answers, the call has not resolved
    although its controller was aborted; with a backend that answers after six
    seconds, the call resolves to that answer and not to the timeout result.
    An answer within the five seconds is returned as it should be. *)
Theorem validateDiscountCode_timer_does_not_cancel :
  (let call := @Validation.validateDiscountCode Engine.runtime neverAnswers
                 0 " summer20 " 5000 in
   Validation.resolved call = None
   /\ Validation.controllerAborted call = true)
  /\ (let call := @Validation.validateDiscountCode Engine.runtime answersAfterSixSeconds
                    0 " summer20 " 5000 in
      Validation.controllerAborted call = true
      /\ option_map Validation.r_valid (Validation.resolved call) = Some true
      /\ option_map Validation.r_message (Validation.resolved call) = Some (Some "ok")
      /\ Validation.resolved call <> Some Validation.timeoutResult)
  /\ (let call := @Validation.validateDiscountCode Engine.runtime answersAtOnce
                    0 " summer20 " 5000 in
      Validation.controllerAborted call = false
      /\ option_map Validation.r_valid (Validation.resolved call) = Some true).
Proof.
  cbv zeta. repeat split; try reflexivity.
  intros Htimeout.
  apply (f_equal (option_map Validation.r_valid)) in Htimeout.
  vm_compute in Htimeout. discriminate Htimeout.
Qed.

(* ================================================================= *)
(** ** The cases of [discountStore.test.ts] and the scenarios of the design *)

Example test_sanitize_uppercase :
  discountCode (@setDiscountCode Engine.runtime "summer20" initialStore) = "SUMMER20".
Proof. reflexivity. Qed.

Example test_trim_whitespace :
  discountCode (@setDiscountCode Engine.runtime "  WINTER15  " initialStore) = "WINTER15".
Proof. reflexivity. Qed.

Example test_set_validating : discountState (setValidating initialStore) = Validating.
Proof. reflexivity. Qed.

Example test_store_discount_data :
  appliedDiscount (setValid summer20 initialStore) = Some summer20
  /\ discountState (setValid summer20 initialStore) = Valid.
Proof. split; reflexivity. Qed.

Example test_set_error : discountState (setError INVALID_CODE initialStore) = Error.
Proof. reflexivity. Qed.

Example test_reset_on_clear :
  clearDiscount (@setDiscountCode Engine.runtime "TEST" initialStore) = initialStore
  /\ clearDiscount (clearDiscount (setValid summer20 initialStore)) = initialStore.
Proof. split; reflexivity. Qed.

Example scenario_no_record_is_invalid_code :
  @Validation.mapToErrorType Engine.runtime newYear2026 None None
  = Validation.INVALID_CODE.
Proof. reflexivity. Qed.

Example scenario_cap_reached_is_no_uses_left :
  @Validation.mapToErrorType Engine.runtime 0
    (Some {| Validation.id := 7;
             Validation.code := "SUMMER20";
             Validation.name := "Summer";
             Validation.discountType := Percentage;
             Validation.discountValue := 20;
             Validation.maxUses := Some 100;
             Validation.currentUses := 100;
             Validation.validFrom := None;
             Validation.validUntil := None;
             Validation.status := Active |}) None
  = Validation.NO_USES_LEFT.
Proof. reflexivity. Qed.

Example scenario_summer20_on_5000 :
  (let call := @Validation.validateDiscountCode Engine.runtime answersAtOnce
                 0 "summer20" 5000 in
   option_map Validation.r_discount (Validation.resolved call) = Some (Some summer20))
  /\ (discountAmount (getDiscountCalculation 5000 (withDiscount summer20)) == 1000)%Q
  /\ (finalPrice (getDiscountCalculation 5000 (withDiscount summer20)) == 4000)%Q.
Proof. repeat split. Qed.

Example scenario_request_rejected_by_abort :
  Validation.onRejected (ThrownError "AbortError" "The operation was aborted")
  = Validation.timeoutResult.
Proof. reflexivity. Qed.

(* ================================================================= *)
(** * Further properties of the code *)

(** ** The store: what its states look like *)

Section StoreShape.
Context `{Runtime}.

Lemma shapeByStatus_perform (st : Store) (a : Action) :
  shapeByStatus st -> shapeByStatus (perform st a).
Proof.
  unfold shapeByStatus. intros Hshape.
  destruct a as [raw | | d | e | | now]; cbn; try (split; congruence); try reflexivity.
  - unfold setDiscountCode; cbn.
    destruct (discountError st) as [e |] eqn:Herr; cbn; [reflexivity |].
    destruct (discountState st); exact Hshape.
  - unfold revalidateStoredDiscount.
    destruct (appliedDiscount st) as [stored |] eqn:Hstored;
      [| rewrite Hstored; exact Hshape].
    destruct (isDiscountExpired now stored); [reflexivity |].
    rewrite Hstored. exact Hshape.
Qed.

Lemma shapeByStatus_performAll (actions : list Action) :
  forall st, shapeByStatus st -> shapeByStatus (performAll actions st).
Proof.
  unfold performAll.
  induction actions as [| a rest IH]; intros st Hshape; cbn.
  - exact Hshape.
  - apply IH, shapeByStatus_perform, Hshape.
Qed.

(** X1. After any sequence of store actions from the initial state, an error
    and an applied discount never stand together, and the status [valid]
    always comes with an applied discount and no error. *)
Theorem error_excludes_applied_discount (actions : list Action) :
  let st := performAll actions initialStore in
  (discountError st <> None ->
   appliedDiscount st = None /\ discountState st = Error)
  /\ (discountState st = Valid ->
      appliedDiscount st <> None /\ discountError st = None)
  /\ (appliedDiscount st <> None -> discountError st = None).
Proof.
  cbv zeta.
  pose proof (shapeByStatus_performAll actions initialStore eq_refl) as Hshape.
  unfold shapeByStatus in Hshape.
  destruct (discountState (performAll actions initialStore));
    repeat split; try congruence; tauto.
Qed.

(** X2. On the states the actions lead to, [hasError] is the status being
    [error], and also the error atom being set: its two tests always agree,
    and it is never true while [isValidating] is. *)
Theorem hasError_is_error_status (actions : list Action) :
  let st := performAll actions initialStore in
  (hasError st = true <-> discountState st = Error)
  /\ (hasError st = true <-> discountError st <> None)
  /\ (hasError st && isValidating st = false).
Proof.
  cbv zeta.
  pose proof (errorStatusAgree_performAll actions initialStore errorStatusAgree_initial)
    as [Hto Hfrom].
  unfold hasError, isValidating.
  destruct (discountState (performAll actions initialStore)) eqn:Hstatus,
           (discountError (performAll actions initialStore)) as [e |] eqn:Herr;
    repeat split; try congruence; try discriminate; try reflexivity; intros Hx;
    try (exfalso; apply (Hto eq_refl); reflexivity);
    try (assert (Hne : Some e <> None) by discriminate; specialize (Hfrom Hne); discriminate).
Qed.

End StoreShape.

(** ** The calculation: bounds and edge cases *)

Local Open Scope Q_scope.

Lemma Math_round_le (x y : Q) : x <= y -> Math_round x <= Math_round y.
Proof.
  intros Hxy. unfold Math_round.
  rewrite <- Zle_Qle. apply Qfloor_resp_le. lra.
Qed.

Lemma Math_round_zero : Math_round 0 = 0.
Proof. reflexivity. Qed.

(** Rounding keeps a value between 0 and an integer bound. *)
Lemma Math_round_between (x : Q) (k : Z) :
  0 <= x -> x <= inject_Z k -> 0 <= Math_round x /\ Math_round x <= inject_Z k.
Proof.
  intros Hlow Hhigh. split.
  - rewrite <- Math_round_zero. apply Math_round_le, Hlow.
  - rewrite <- (Math_round_inject_Z k). apply Math_round_le, Hhigh.
Qed.

(** The same for a value scaled by 100 and brought back. *)
Lemma round_to_cents_between (x p : Q) :
  wholeHundredths p -> 0 <= x -> x <= p ->
  0 <= Math_round (x * 100) / 100 /\ Math_round (x * 100) / 100 <= p.
Proof.
  intros [k Hk] Hlow Hhigh.
  destruct (Math_round_between (x * 100) k) as [Hr0 Hr1].
  - lra.
  - rewrite Hk in Hhigh.
    assert (Hdiv : inject_Z k / 100 == inject_Z k * (1 # 100)) by field.
    rewrite Hdiv in Hhigh. lra.
  - assert (Hdiv : Math_round (x * 100) / 100 == Math_round (x * 100) * (1 # 100))
      by field.
    rewrite Hdiv, Hk.
    assert (Hdiv' : inject_Z k / 100 == inject_Z k * (1 # 100)) by field.
    rewrite Hdiv'. split; lra.
Qed.

(** X3. For a price that is not negative and a whole number of hundredths,
    with a percentage between 0 and 100 or a fixed amount that is not
    negative, discount amount and final price both lie between 0 and the
    price: the discount never exceeds the price and the final price is never
    negative. *)
Theorem calculation_within_price (price : Q) (st : Store) (d : Discount)
  (Happlied : appliedDiscount st = Some d)
  (Hnonneg : 0 <= price)
  (Hprice : wholeHundredths price)
  (Hpercentage : type d = Percentage -> 0 <= amount d /\ amount d <= 100)
  (Hfixed : type d = Fixed -> 0 <= amount d) :
  let c := getDiscountCalculation price st in
  0 <= discountAmount c /\ discountAmount c <= price
  /\ 0 <= finalPrice c /\ finalPrice c <= price.
Proof.
  cbv zeta.
  assert (Hamount : 0 <= discountAmount (getDiscountCalculation price st)
                    /\ discountAmount (getDiscountCalculation price st) <= price).
  { destruct (type d) eqn:Htype.
    - rewrite (discountAmount_percentage price st d Happlied Htype).
      destruct (Hpercentage eq_refl) as [Ha0 Ha100].
      apply round_to_cents_between; [exact Hprice | |].
      + assert (Hprod : 0 <= price * amount d) by (apply Qmult_le_0_compat; assumption).
        assert (Hdiv : price * amount d / 100 == price * amount d * (1 # 100)) by field.
        rewrite Hdiv. lra.
      + assert (Hprod : price * amount d <= price * 100)
          by (rewrite !(Qmult_comm price); apply Qmult_le_compat_r; assumption).
        assert (Hdiv : price * amount d / 100 == price * amount d * (1 # 100)) by field.
        rewrite Hdiv. lra.
    - rewrite (discountAmount_fixed price st d Happlied Htype).
      pose proof (Hfixed eq_refl) as Ha0.
      split.
      + apply Q.min_glb; assumption.
      + apply Q.le_min_r. }
  destruct Hamount as [Hd0 Hd1].
  split; [exact Hd0 |]. split; [exact Hd1 |].
  rewrite (finalPrice_unfold price st d Happlied).
  apply round_to_cents_between; [exact Hprice | lra | lra].
Qed.

Lemma calculation_within_price_witness :
  let c := getDiscountCalculation 3 (withDiscount fiveOff) in
  0 <= discountAmount c /\ discountAmount c <= 3
  /\ 0 <= finalPrice c /\ finalPrice c <= 3.
Proof.
  apply (calculation_within_price 3 (withDiscount fiveOff) fiveOff eq_refl).
  - discriminate.
  - apply wholeHundredths_inject_Z.
  - intros Hkind. discriminate Hkind.
  - intros _. discriminate.
Defined.

(** X4. The percentage of the calculation is the amount itself for a
    percentage discount.  For a fixed discount it is 0 when the price is not
    positive (nothing is divided by zero), and for a positive price and an
    amount that is not negative it is an integer between 0 and 100. *)
Theorem percentageApplied_by_kind (price : Q) (st : Store) (d : Discount)
  (Happlied : appliedDiscount st = Some d) :
  let c := getDiscountCalculation price st in
  (type d = Percentage -> percentageApplied c = amount d)
  /\ (type d = Fixed -> price <= 0 -> percentageApplied c = 0)
  /\ (type d = Fixed -> 0 < price -> 0 <= amount d ->
      wholeUnits (percentageApplied c)
      /\ 0 <= percentageApplied c /\ percentageApplied c <= 100).
Proof.
  cbv zeta. unfold getDiscountCalculation. rewrite Happlied.
  split; [| split].
  - intros ->. reflexivity.
  - intros -> Hprice. cbn.
    destruct (Qlt_le_dec 0 price) as [Hpos | _]; [lra | reflexivity].
  - intros -> Hpos Ha0. cbn.
    destruct (Qlt_le_dec 0 price) as [_ | Hle]; [| lra].
    split; [unfold Math_round; eexists; reflexivity |].
    unfold Math_min.
    assert (Hmin0 : 0 <= Qmin (amount d) price) by (apply Q.min_glb; lra).
    assert (Hmin1 : Qmin (amount d) price <= price) by apply Q.le_min_r.
    assert (Hquot0 : 0 <= Qmin (amount d) price / price)
      by (apply Qle_shift_div_l; lra).
    assert (Hquot1 : Qmin (amount d) price / price <= 1)
      by (apply Qle_shift_div_r; lra).
    generalize dependent (Qmin (amount d) price / price). intros share Hshare0 Hshare1.
    apply (Math_round_between (share * 100) 100%Z).
    + lra.
    + change (inject_Z 100) with 100. lra.
Qed.

Lemma percentageApplied_by_kind_witness :
  percentageApplied (getDiscountCalculation 20 (withDiscount fiveOff)) == 25
  /\ percentageApplied (getDiscountCalculation 0 (withDiscount fiveOff)) == 0.
Proof.
  destruct (percentageApplied_by_kind 0 (withDiscount fiveOff) fiveOff eq_refl)
    as (_ & Hzero & _).
  split; [reflexivity |].
  rewrite (Hzero eq_refl); [reflexivity | discriminate].
Defined.

(** X5. A fixed discount at least as large as the price takes the whole
    price and no more: the discount amount is the price, the final price is 0,
    and for a positive price the percentage is 100. *)
Theorem fixed_discount_covers_price (price : Q) (st : Store) (d : Discount)
  (Happlied : appliedDiscount st = Some d)
  (Hkind : type d = Fixed)
  (Hcovers : price <= amount d) :
  let c := getDiscountCalculation price st in
  discountAmount c == price
  /\ finalPrice c == 0
  /\ (0 < price -> percentageApplied c == 100).
Proof.
  cbv zeta.
  assert (Hamount : discountAmount (getDiscountCalculation price st) == price).
  { rewrite (discountAmount_fixed price st d Happlied Hkind).
    apply Q.min_r, Hcovers. }
  split; [exact Hamount |]. split.
  - rewrite (finalPrice_unfold price st d Happlied).
    rewrite (Math_round_comp _ 0) by (rewrite Hamount; ring).
    reflexivity.
  - intros Hpos. unfold getDiscountCalculation. rewrite Happlied, Hkind. cbn.
    destruct (Qlt_le_dec 0 price) as [_ | Hle]; [| lra].
    rewrite (Math_round_comp _ (inject_Z 100)).
    + rewrite Math_round_inject_Z. reflexivity.
    + unfold Math_min. rewrite (Q.min_r _ _ Hcovers).
      change (inject_Z 100) with 100. field. lra.
Qed.

Lemma fixed_discount_covers_price_witness :
  finalPrice (getDiscountCalculation 3 (withDiscount fiveOff)) == 0
  /\ discountAmount (getDiscountCalculation 3 (withDiscount fiveOff)) == 3.
Proof.
  destruct (fixed_discount_covers_price 3 (withDiscount fiveOff) fiveOff
              eq_refl eq_refl) as (Hamount & Hfinal & _).
  - discriminate.
  - split; assumption.
Defined.

(** X6. A discount of amount 0, of either kind, changes nothing on a price
    that is not negative and a whole number of hundredths: the final price is
    the price, as it is with no discount applied. *)
Theorem zero_discount_is_neutral (price : Q) (st : Store) (d : Discount)
  (Happlied : appliedDiscount st = Some d)
  (Hzero : amount d == 0)
  (Hnonneg : 0 <= price)
  (Hprice : wholeHundredths price) :
  let c := getDiscountCalculation price st in
  discountAmount c == 0
  /\ finalPrice c == price
  /\ finalPrice c
     == finalPrice (getDiscountCalculation price (clearDiscount st)).
Proof.
  cbv zeta.
  assert (Hamount : discountAmount (getDiscountCalculation price st) == 0).
  { destruct (type d) eqn:Htype.
    - rewrite (discountAmount_percentage price st d Happlied Htype).
      rewrite (Math_round_comp _ 0) by (rewrite Hzero; field).
      reflexivity.
    - rewrite (discountAmount_fixed price st d Happlied Htype).
      rewrite Hzero. apply Q.min_l, Hnonneg. }
  assert (Hfinal : finalPrice (getDiscountCalculation price st) == price).
  { rewrite (finalPrice_unfold price st d Happlied).
    rewrite (Math_round_comp _ (price * 100)) by (rewrite Hamount; ring).
    apply round_to_cents_exact, Hprice. }
  split; [exact Hamount |]. split; [exact Hfinal |].
  rewrite Hfinal. reflexivity.
Qed.

Lemma zero_discount_is_neutral_witness :
  finalPrice (getDiscountCalculation 999 (withDiscount nothingOff)) == 999.
Proof.
  destruct (zero_discount_is_neutral 999 (withDiscount nothingOff) nothingOff
              eq_refl) as (_ & Hfinal & _).
  - reflexivity.
  - discriminate.
  - apply wholeHundredths_inject_Z.
  - exact Hfinal.
Defined.

Local Close Scope Q_scope.

(** ** Normalising and checking a code, on ASCII text *)

Ltac by_all_characters c :=
  destruct c as [[|] [|] [|] [|] [|] [|] [|] [|]]; try reflexivity; try discriminate.

Lemma upperChar_isWhiteSpace (c : ascii) :
  Engine.isWhiteSpace (Engine.upperChar c) = Engine.isWhiteSpace c.
Proof. by_all_characters c. Qed.

Lemma upperChar_idempotent (c : ascii) :
  Engine.upperChar (Engine.upperChar c) = Engine.upperChar c.
Proof. by_all_characters c. Qed.

Lemma isUpperOrDigit_upperChar (c : ascii) :
  isUpperOrDigit (Engine.upperChar c) = isLetterOrDigit c.
Proof. by_all_characters c. Qed.

Lemma isLetterOrDigit_not_isWhiteSpace (c : ascii) :
  isLetterOrDigit c = true -> Engine.isWhiteSpace c = false.
Proof. by_all_characters c. Qed.

Lemma toUpperCase_idempotent (s : string) :
  Engine.toUpperCase (Engine.toUpperCase s) = Engine.toUpperCase s.
Proof.
  induction s as [| c r IH]; cbn; [reflexivity |].
  rewrite upperChar_idempotent, IH. reflexivity.
Qed.

Lemma toUpperCase_length (s : string) :
  String.length (Engine.toUpperCase s) = String.length s.
Proof.
  induction s as [| c r IH]; cbn; [reflexivity | rewrite IH; reflexivity].
Qed.

Lemma trimStart_toUpperCase (s : string) :
  Engine.trimStart (Engine.toUpperCase s) = Engine.toUpperCase (Engine.trimStart s).
Proof.
  induction s as [| c r IH]; cbn; [reflexivity |].
  rewrite upperChar_isWhiteSpace.
  destruct (Engine.isWhiteSpace c); [exact IH | reflexivity].
Qed.

Lemma trimEnd_toUpperCase (s : string) :
  Engine.trimEnd (Engine.toUpperCase s) = Engine.toUpperCase (Engine.trimEnd s).
Proof.
  induction s as [| c r IH]; cbn; [reflexivity |].
  rewrite IH.
  destruct (Engine.trimEnd r) as [| a r']; cbn.
  - rewrite upperChar_isWhiteSpace.
    destruct (Engine.isWhiteSpace c); reflexivity.
  - reflexivity.
Qed.

Lemma trim_toUpperCase (s : string) :
  Engine.trim (Engine.toUpperCase s) = Engine.toUpperCase (Engine.trim s).
Proof.
  unfold Engine.trim. rewrite trimStart_toUpperCase, trimEnd_toUpperCase. reflexivity.
Qed.

Lemma trimEnd_idempotent (s : string) :
  Engine.trimEnd (Engine.trimEnd s) = Engine.trimEnd s.
Proof.
  induction s as [| c r IH]; cbn; [reflexivity |].
  destruct (Engine.trimEnd r) as [| a r'] eqn:Hend.
  - destruct (Engine.isWhiteSpace c) eqn:Hws; cbn; [reflexivity |].
    rewrite Hws. reflexivity.
  - change (Engine.trimEnd (String c (String a r')))
      with (match Engine.trimEnd (String a r') with
            | EmptyString =>
                if Engine.isWhiteSpace c then EmptyString else String c EmptyString
            | String b t => String c (String b t)
            end).
    rewrite IH. reflexivity.
Qed.

Lemma trimStart_startsClean (s : string) : startsClean (Engine.trimStart s).
Proof.
  induction s as [| c r IH]; cbn; [exact I |].
  destruct (Engine.isWhiteSpace c) eqn:Hws; [exact IH | exact Hws].
Qed.

Lemma trimStart_of_startsClean (s : string) :
  startsClean s -> Engine.trimStart s = s.
Proof.
  destruct s as [| c r]; cbn; [reflexivity |].
  intros ->. reflexivity.
Qed.

Lemma trimEnd_startsClean (s : string) :
  startsClean s -> startsClean (Engine.trimEnd s).
Proof.
  destruct s as [| c r]; cbn; [exact (fun h => h) |].
  intros Hws. destruct (Engine.trimEnd r); [rewrite Hws |]; exact Hws.
Qed.

Lemma trim_idempotent (s : string) : Engine.trim (Engine.trim s) = Engine.trim s.
Proof.
  unfold Engine.trim.
  rewrite (trimStart_of_startsClean (Engine.trimEnd (Engine.trimStart s))).
  - apply trimEnd_idempotent.
  - apply trimEnd_startsClean, trimStart_startsClean.
Qed.

(** X7. On ASCII text, a sanitized code is a fixed point of the
    normalisation: trimming it, upper-casing it or sanitizing it again gives
    it back, so storing the stored code again with [setDiscountCode] leaves
    the code as it is; and [normalizeCode] of the helpers computes the same
    code as [sanitizeCode] of the store. *)
Theorem sanitizeCode_fixed_point (raw : string) (st : Store) :
  let code := @sanitizeCode Engine.runtime raw in
  Engine.trim code = code
  /\ Engine.toUpperCase code = code
  /\ @sanitizeCode Engine.runtime code = code
  /\ @normalizeCode Engine.runtime raw = code
  /\ discountCode
       (@setDiscountCode Engine.runtime
          (discountCode (@setDiscountCode Engine.runtime raw st))
          (@setDiscountCode Engine.runtime raw st))
     = discountCode (@setDiscountCode Engine.runtime raw st).
Proof.
  cbv zeta. unfold sanitizeCode, normalizeCode; cbn [String_trim String_toUpperCase Engine.runtime].
  assert (Htrim : Engine.trim (Engine.toUpperCase (Engine.trim raw))
                  = Engine.toUpperCase (Engine.trim raw))
    by (rewrite trim_toUpperCase, trim_idempotent; reflexivity).
  assert (Hagain : Engine.toUpperCase (Engine.trim (Engine.toUpperCase (Engine.trim raw)))
                   = Engine.toUpperCase (Engine.trim raw))
    by (rewrite Htrim; apply toUpperCase_idempotent).
  repeat split.
  - exact Htrim.
  - apply toUpperCase_idempotent.
  - exact Hagain.
  - unfold setDiscountCode, sanitizeCode;
      cbn [String_trim String_toUpperCase Engine.runtime].
    destruct (discountError st); cbn; exact Hagain.
Qed.

Lemma allChars_toUpperCase (s : string) :
  allChars isUpperOrDigit (Engine.toUpperCase s) = allChars isLetterOrDigit s.
Proof.
  induction s as [| c r IH]; cbn; [reflexivity |].
  rewrite isUpperOrDigit_upperChar, IH. reflexivity.
Qed.

Lemma trimEnd_of_letters (s : string) :
  allChars isLetterOrDigit s = true -> Engine.trimEnd s = s.
Proof.
  induction s as [| c r IH]; cbn; [reflexivity |].
  intros Hall. apply andb_true_iff in Hall as [Hc Hr].
  rewrite (IH Hr).
  destruct r; [| reflexivity].
  rewrite (isLetterOrDigit_not_isWhiteSpace c Hc). reflexivity.
Qed.

Lemma trim_of_letters (s : string) :
  allChars isLetterOrDigit s = true -> Engine.trim s = s.
Proof.
  intros Hall. unfold Engine.trim.
  rewrite trimStart_of_startsClean.
  - apply trimEnd_of_letters, Hall.
  - destruct s as [| c r]; cbn; [exact I |].
    cbn in Hall. apply andb_true_iff in Hall as [Hc _].
    apply isLetterOrDigit_not_isWhiteSpace, Hc.
Qed.

(** X8. On ASCII text, the validator of the store accepts exactly the codes
    that the validator of the helpers accepts, that have at least four
    characters and that carry no white space around them; so every code the
    store accepts the helpers accept, and the store's answer does not depend
    on the case of the letters. *)
Theorem validateCodeFormat_stricter_than_helper (code : string) :
  (@validateCodeFormat Engine.runtime code = true
   <-> @isValidCodeFormat Engine.runtime code = true
       /\ (4 <= String.length code)%nat
       /\ Engine.trim code = code)
  /\ @validateCodeFormat Engine.runtime (Engine.toUpperCase code)
     = @validateCodeFormat Engine.runtime code.
Proof.
  unfold validateCodeFormat, isValidCodeFormat, classRepeated;
    cbn [String_trim String_toUpperCase Engine.runtime].
  split.
  - rewrite toUpperCase_length, allChars_toUpperCase.
    rewrite !andb_true_iff, !Nat.leb_le.
    split.
    + intros [[Hlow Hhigh] Hall].
      pose proof (trim_of_letters code Hall) as Htrim.
      rewrite Htrim.
      destruct (String.eqb_spec code "") as [-> | _]; [cbn in Hlow; lia |].
      rewrite !andb_true_iff, !Nat.leb_le. repeat split; auto; lia.
    + intros (Hhelper & Hlow & Htrim).
      destruct (code =? "")%string; [discriminate |].
      rewrite Htrim in Hhelper.
      rewrite !andb_true_iff, !Nat.leb_le in Hhelper.
      destruct Hhelper as [[_ Hhigh] Hall]. repeat split; auto.
  - rewrite toUpperCase_idempotent. reflexivity.
Qed.

Lemma validateCodeFormat_stricter_than_helper_witness :
  @validateCodeFormat Engine.runtime "verano20" = true
  /\ @isValidCodeFormat Engine.runtime "verano20" = true
  /\ @validateCodeFormat Engine.runtime "ABC" = false
  /\ @isValidCodeFormat Engine.runtime "ABC" = true
  /\ @validateCodeFormat Engine.runtime " VERANO20 " = false
  /\ @isValidCodeFormat Engine.runtime " VERANO20 " = true.
Proof.
  destruct (validateCodeFormat_stricter_than_helper "verano20") as [[_ Hfrom] _].
  split; [apply Hfrom; split; [reflexivity | split; [cbn; lia | reflexivity]] |].
  repeat split; reflexivity.
Defined.

(** ** lib/utils/discount-helpers.ts: the calculations *)

Local Open Scope Q_scope.

(** [Math.round] gives the integer that lies within a half of its argument,
    the lower end included. *)
Lemma Math_round_unique (x : Q) (n : Z) :
  inject_Z n - (1 # 2) <= x -> x < inject_Z n + (1 # 2) ->
  Math_round x = inject_Z n.
Proof.
  intros Hlow Hhigh. unfold Math_round. f_equal.
  pose proof (Qfloor_le (x + (1 # 2))) as Hle.
  pose proof (Qlt_floor (x + (1 # 2))) as Hlt.
  rewrite inject_Z_plus in Hlt. change (inject_Z 1) with 1 in Hlt.
  assert (Hup : (Qfloor (x + (1 # 2)) < n + 1)%Z).
  { rewrite Zlt_Qlt, inject_Z_plus. change (inject_Z 1) with 1. lra. }
  assert (Hdown : (n < Qfloor (x + (1 # 2)) + 1)%Z).
  { rewrite Zlt_Qlt, inject_Z_plus. change (inject_Z 1) with 1. lra. }
  lia.
Qed.

Lemma wholeUnits_Math_round (x : Q) : wholeUnits (Math_round x).
Proof. unfold Math_round. eexists. reflexivity. Qed.

Lemma wholeUnits_minus (x y : Q) : wholeUnits x -> wholeUnits y -> wholeUnits (x - y).
Proof.
  intros [k Hk] [l Hl]. exists (k - l)%Z.
  rewrite Hk, Hl. unfold Zminus. rewrite inject_Z_plus, inject_Z_opp. ring.
Qed.

(** X9. [applyPercentageDiscount] on a price in whole cents that is not
    negative, with a percentage between 0 and 100, returns a price in whole
    cents between 0 and the price. *)
Theorem applyPercentageDiscount_within_price (priceCents percentage : Q)
  (Hunits : wholeUnits priceCents)
  (Hnonneg : 0 <= priceCents)
  (Hlow : 0 <= percentage)
  (Hhigh : percentage <= 100) :
  wholeUnits (applyPercentageDiscount priceCents percentage)
  /\ 0 <= applyPercentageDiscount priceCents percentage
  /\ applyPercentageDiscount priceCents percentage <= priceCents.
Proof.
  unfold applyPercentageDiscount.
  split; [apply wholeUnits_minus; [exact Hunits | apply wholeUnits_Math_round] |].
  destruct Hunits as [k Hk].
  assert (Hshare0 : 0 <= percentage / 100).
  { apply Qle_shift_div_l; lra. }
  assert (Hshare1 : percentage / 100 <= 1).
  { apply Qle_shift_div_r; lra. }
  generalize dependent (percentage / 100). intros share Hshare0 Hshare1.
  destruct (Math_round_between (priceCents * share) k) as [Hr0 Hr1].
  - apply Qmult_le_0_compat; assumption.
  - rewrite <- Hk.
    assert (Hprod : priceCents * share <= priceCents * 1)
      by (rewrite !(Qmult_comm priceCents); apply Qmult_le_compat_r; assumption).
    lra.
  - rewrite <- Hk in Hr1. split; lra.
Qed.

Lemma applyPercentageDiscount_within_price_witness :
  applyPercentageDiscount 5000 20 == 4000
  /\ 0 <= applyPercentageDiscount 999 15
  /\ applyPercentageDiscount 999 15 <= 999.
Proof.
  split; [reflexivity |].
  apply (applyPercentageDiscount_within_price 999 15).
  - exists 999%Z. reflexivity.
  - discriminate.
  - discriminate.
  - discriminate.
Defined.

(** X10. Above a price of 100 cents, [calculateDiscountPercentage] gives
    back the whole percentage that [applyPercentageDiscount] took off. *)
Theorem percentage_round_trip (priceCents : Q) (n : Z)
  (Hprice : 100 < priceCents) :
  calculateDiscountPercentage priceCents
    (applyPercentageDiscount priceCents (inject_Z n))
  == inject_Z n.
Proof.
  unfold calculateDiscountPercentage, applyPercentageDiscount, calculateSavings.
  assert (Hpos : Qle_bool priceCents 0 = false).
  { destruct (Qle_bool priceCents 0) eqn:Hle; [| reflexivity].
    apply Qle_bool_iff in Hle. lra. }
  rewrite Hpos.
  pose proof (Math_round_nearest (priceCents * (inject_Z n / 100))) as [Hlow Hhigh].
  set (s := Math_round (priceCents * (inject_Z n / 100))) in *.
  assert (Hexact : priceCents * (inject_Z n / 100)
                   == priceCents * inject_Z n * (1 # 100)) by field.
  rewrite Hexact in Hlow, Hhigh.
  assert (Hshape : (priceCents - (priceCents - s)) / priceCents * 100
                   == inject_Z n
                      + (s - priceCents * inject_Z n * (1 # 100)) * 100 / priceCents).
  { field. lra. }
  rewrite (Math_round_comp _ _ Hshape).
  rewrite (Math_round_unique _ n); [reflexivity | |].
  - assert (Hpart : - (1 # 2)
                    < (s - priceCents * inject_Z n * (1 # 100)) * 100 / priceCents).
    { apply Qlt_shift_div_l; [lra |].
      generalize dependent (priceCents * inject_Z n). intros. lra. }
    lra.
  - assert (Hpart : (s - priceCents * inject_Z n * (1 # 100)) * 100 / priceCents
                    < 1 # 2).
    { apply Qlt_shift_div_r; [lra |].
      generalize dependent (priceCents * inject_Z n). intros. lra. }
    lra.
Qed.

Lemma percentage_round_trip_witness :
  calculateDiscountPercentage 999 (applyPercentageDiscount 999 15) == 15
  /\ calculateDiscountPercentage 3 (applyPercentageDiscount 3 20) == 33.
Proof.
  split; [| reflexivity].
  apply (percentage_round_trip 999 15). reflexivity.
Defined.

(** X11. [calculateDiscountPercentage] is 0 for an original price that is
    not positive (nothing is divided by zero); for a positive original price
    and a final price between 0 and it, the result is an integer between 0
    and 100, 0 when nothing was taken off and 100 when the final price is 0. *)
Theorem calculateDiscountPercentage_range (originalPriceCents finalPriceCents : Q) :
  (originalPriceCents <= 0 ->
   calculateDiscountPercentage originalPriceCents finalPriceCents = 0)
  /\ (0 < originalPriceCents ->
      0 <= finalPriceCents -> finalPriceCents <= originalPriceCents ->
      wholeUnits (calculateDiscountPercentage originalPriceCents finalPriceCents)
      /\ 0 <= calculateDiscountPercentage originalPriceCents finalPriceCents
      /\ calculateDiscountPercentage originalPriceCents finalPriceCents <= 100)
  /\ (0 < originalPriceCents ->
      calculateDiscountPercentage originalPriceCents originalPriceCents == 0
      /\ calculateDiscountPercentage originalPriceCents 0 == 100).
Proof.
  unfold calculateDiscountPercentage, calculateSavings.
  split; [| split].
  - intros Hle. apply Qle_bool_iff in Hle. rewrite Hle. reflexivity.
  - intros Hpos Hf0 Hf1.
    destruct (Qle_bool originalPriceCents 0) eqn:Hle;
      [apply Qle_bool_iff in Hle; lra |].
    split; [apply wholeUnits_Math_round |].
    assert (Hshare0 : 0 <= (originalPriceCents - finalPriceCents) / originalPriceCents)
      by (apply Qle_shift_div_l; lra).
    assert (Hshare1 : (originalPriceCents - finalPriceCents) / originalPriceCents <= 1)
      by (apply Qle_shift_div_r; lra).
    generalize dependent ((originalPriceCents - finalPriceCents) / originalPriceCents).
    intros share Hshare0 Hshare1.
    apply (Math_round_between (share * 100) 100%Z).
    + lra.
    + change (inject_Z 100) with 100. lra.
  - intros Hpos.
    destruct (Qle_bool originalPriceCents 0) eqn:Hle;
      [apply Qle_bool_iff in Hle; lra |].
    split.
    + rewrite (Math_round_comp _ (inject_Z 0)) by (change (inject_Z 0) with 0; field; lra).
      rewrite Math_round_inject_Z. reflexivity.
    + rewrite (Math_round_comp _ (inject_Z 100))
        by (change (inject_Z 100) with 100; field; lra).
      rewrite Math_round_inject_Z. reflexivity.
Qed.

Lemma calculateDiscountPercentage_range_witness :
  calculateDiscountPercentage 0 (-5) = 0
  /\ calculateDiscountPercentage 5000 4000 == 20.
Proof.
  destruct (calculateDiscountPercentage_range 0 (-5)) as (Hzero & _).
  split; [apply Hzero; discriminate | reflexivity].
Defined.

Local Close Scope Q_scope.

(** ** The validation client: its results *)

Section ClientResults.
Context `{Runtime}.





(** X15. The client takes the backend at its word.  An answer marked valid
    that carries a record is a success whatever the status and the dates of
    the record, and the discount returned is the record field by field; an
    answer without a record is INVALID_CODE whatever its valid flag.  When
    such a discount is inactive, expired or past its end, the store discards
    it on the next [revalidateStoredDiscount]. *)
Theorem client_trusts_valid_flag (now : Z) (data : Validation.ValidateDiscountResponse) :
  (forall dc,
      Validation.valid data = true ->
      Validation.discountCode data = Some dc ->
      Validation.r_valid (Validation.onFulfilled now data) = true
      /\ Validation.r_discount (Validation.onFulfilled now data)
         = Some (discountOfNode dc)
      /\ (forall later st,
             expiredByRule later (discountOfNode dc) ->
             revalidateStoredDiscount later (setValid (discountOfNode dc) st)
             = initialStore))
  /\ (Validation.discountCode data = None ->
      Validation.r_valid (Validation.onFulfilled now data) = false
      /\ Validation.r_error (Validation.onFulfilled now data)
         = Some Validation.INVALID_CODE).
Proof.
  unfold Validation.onFulfilled. split.
  - intros dc -> ->. cbn. repeat split.
    intros later st Hrule.
    apply isDiscountExpired_rule in Hrule.
    unfold revalidateStoredDiscount, setValid; cbn. rewrite Hrule. reflexivity.
  - intros ->. destruct (Validation.valid data); split; reflexivity.
Qed.

(** X16. When the events of a call have run, its timer is armed no more,
    and its controller is aborted exactly when the request had not settled
    within 5000 ms. *)
Theorem timer_disarmed_in_the_end
  (graphqlQuery : Validation.GraphqlQuery) (startedAt : Z)
  (code : string) (subtotalCents : Q) :
  let call := Validation.validateDiscountCode graphqlQuery startedAt code subtotalCents in
  Validation.timerArmed call = false
  /\ (Validation.controllerAborted call = false
      <-> exists t s,
          graphqlQuery Validation.VALIDATE_DISCOUNT_CODE_QUERY
            {| Validation.v_code := String_toUpperCase (String_trim code);
               Validation.v_subtotalCents := subtotalCents |}
          = Validation.SettlesAt t s
          /\ t < Validation.TIMEOUT_MS).
Proof.
  cbv zeta. unfold Validation.validateDiscountCode.
  destruct (graphqlQuery _ _) as [t s |]; cbn.
  - destruct (Z.ltb_spec t Validation.TIMEOUT_MS) as [Hlt | Hge]; cbn.
    + split; [reflexivity |]. split; [| reflexivity].
      intros _. exists t, s. split; [reflexivity | exact Hlt].
    + split; [reflexivity |]. split; [discriminate |].
      intros (t' & s' & Heq & Hlt). injection Heq as <- <-. lia.
  - split; [reflexivity |]. split; [discriminate |].
    intros (t' & s' & Heq & _). discriminate Heq.
Qed.

(** ** The application client *)

Lemma applyDiscountCode_resolved (graphqlQuery : Application.GraphqlQuery)
  (code : string) (bookingId : Z) :
  Application.resolved (Application.applyDiscountCode graphqlQuery code bookingId)
  = match graphqlQuery Application.APPLY_DISCOUNT_CODE_MUTATION
            {| Application.v_code := String_toUpperCase (String_trim code);
               Application.v_bookingId := bookingId |} with
    | Application.NeverSettles => None
    | Application.SettlesAt t (Application.Fulfilled data) =>
        Some (Application.onFulfilled data)
    | Application.SettlesAt t (Application.Rejected e) =>
        Some (Application.onRejected e)
    end.
Proof.
  unfold Application.applyDiscountCode.
  destruct (graphqlQuery _ _) as [t s |]; cbn; [| reflexivity].
  destruct (t <? 5000); destruct s; reflexivity.
Qed.

(** X17. [applyDiscountCode] reports a success only when the backend did:
    a call that resolved with [success] true had its request fulfilled with a
    [success] of true, at whatever time, before or after the five seconds
    of its timer; a rejected request gives a failure without an amount. *)
Theorem applyDiscountCode_success_is_the_backends
  (graphqlQuery : Application.GraphqlQuery) (code : string) (bookingId : Z)
  (r : Application.ApplyDiscountResult)
  (Hresolved : Application.resolved
                 (Application.applyDiscountCode graphqlQuery code bookingId)
               = Some r) :
  (Application.r_success r = true ->
   exists t data,
     graphqlQuery Application.APPLY_DISCOUNT_CODE_MUTATION
       {| Application.v_code := String_toUpperCase (String_trim code);
          Application.v_bookingId := bookingId |}
     = Application.SettlesAt t (Application.Fulfilled data)
     /\ Application.success data = true
     /\ Application.r_message r = Application.message data
     /\ Application.r_discountApplied r = Application.discountApplied data)
  /\ (forall t e,
         graphqlQuery Application.APPLY_DISCOUNT_CODE_MUTATION
           {| Application.v_code := String_toUpperCase (String_trim code);
              Application.v_bookingId := bookingId |}
         = Application.SettlesAt t (Application.Rejected e) ->
         Application.r_success r = false
         /\ Application.r_discountApplied r = None).
Proof.
  rewrite applyDiscountCode_resolved in Hresolved.
  destruct (graphqlQuery _ _) as [t [data | e] |]; [| | discriminate Hresolved];
    injection Hresolved as <-; split.
  - intros Hsuccess. exists t, data. repeat split. exact Hsuccess.
  - intros t' e Heq. discriminate Heq.
  - intros Hsuccess. discriminate Hsuccess.
  - intros _ _ _. split; reflexivity.
Qed.

End ClientResults.


Lemma client_trusts_valid_flag_witness :
  Validation.r_valid (@Validation.onFulfilled Engine.runtime 0 callsInactiveValid) = true
  /\ @revalidateStoredDiscount Engine.runtime 0
       (setValid (discountOfNode lapsedAndInactive) initialStore)
     = initialStore.
Proof.
  destruct (@client_trusts_valid_flag Engine.runtime 0 callsInactiveValid)
    as [Hrecord _].
  destruct (Hrecord lapsedAndInactive eq_refl eq_refl) as (Hvalid & _ & Hdiscarded).
  split; [exact Hvalid |].
  apply Hdiscarded. left. reflexivity.
Defined.

Lemma applyDiscountCode_success_is_the_backends_witness :
  exists r,
    Application.resolved
      (@Application.applyDiscountCode Engine.runtime abortsAfterSevenSeconds
         " summer20 " 12345) = Some r
    /\ Application.r_success r = false
    /\ Application.r_message r = "Error applying discount: The operation was aborted".
Proof.
  eexists. split; [reflexivity |].
  destruct (@applyDiscountCode_success_is_the_backends Engine.runtime
              abortsAfterSevenSeconds " summer20 " 12345 _ eq_refl)
    as [_ Hrejected].
  destruct (Hrejected 7000 (ThrownError "AbortError" "The operation was aborted") eq_refl)
    as [Hfailure _].
  split; [exact Hfailure | reflexivity].
Defined.

(** ** The display of an error *)

(** X18. The display bundles tell the categories apart: two categories with
    the same title, or with the same icon, are the same category.  Every
    category a retry can recover from is shown with the severity [error], and
    the categories shown as a warning or as information are exactly those
    about the state of the code itself. *)
Theorem getErrorConfig_tells_categories_apart :
  (forall e1 e2 : DiscountErrorType,
      title (getErrorConfig e1) = title (getErrorConfig e2) -> e1 = e2)
  /\ (forall e1 e2 : DiscountErrorType,
         icon (getErrorConfig e1) = icon (getErrorConfig e2) -> e1 = e2)
  /\ (forall e : DiscountErrorType,
         isRecoverableError (errorTag e) = true ->
         severity (getErrorConfig e) = SeverityError)
  /\ (forall e : DiscountErrorType,
         severity (getErrorConfig e) <> SeverityError
         <-> e = EXPIRED \/ e = NO_USES_LEFT \/ e = ALREADY_USED \/ e = INACTIVE).
Proof.
  repeat split.
  - intros e1 e2 Heq. destruct e1, e2; try reflexivity; discriminate Heq.
  - intros e1 e2 Heq. destruct e1, e2; try reflexivity; discriminate Heq.
  - intros e Hrec. destruct e; try reflexivity; discriminate Hrec.
  - intros Hsev. destruct e; cbn in Hsev; try congruence; auto.
  - intros [-> | [-> | [-> | ->]]]; discriminate.
Qed.

(** ** The blog cache *)

Lemma mapGet_mapSet_same {V} (m : JsMap V) (key : string) (v : V) :
  mapGet (mapSet m key v) key = Some v.
Proof.
  induction m as [| [k old] rest IH]; cbn.
  - rewrite String.eqb_refl. reflexivity.
  - destruct (k =? key)%string eqn:Hk; cbn; rewrite Hk; [reflexivity | exact IH].
Qed.

Lemma mapGet_mapSet_other {V} (m : JsMap V) (key other : string) (v : V) :
  key <> other -> mapGet (mapSet m key v) other = mapGet m other.
Proof.
  intros Hdiff.
  induction m as [| [k old] rest IH]; cbn.
  - destruct (String.eqb_spec key other); [contradiction | reflexivity].
  - destruct (String.eqb_spec k key) as [-> | Hk]; cbn.
    + destruct (String.eqb_spec key other); [contradiction | reflexivity].
    + destruct (k =? other)%string; [reflexivity | exact IH].
Qed.

Lemma mapGet_mapDelete_same {V} (m : JsMap V) (key : string) :
  mapGet (mapDelete m key) key = None.
Proof.
  induction m as [| [k v] rest IH]; cbn; [reflexivity |].
  destruct (k =? key)%string eqn:Hk; cbn; [exact IH |].
  rewrite Hk. exact IH.
Qed.

Lemma mapGet_mapDelete_other {V} (m : JsMap V) (key other : string) :
  key <> other -> mapGet (mapDelete m key) other = mapGet m other.
Proof.
  intros Hdiff.
  induction m as [| [k v] rest IH]; cbn; [reflexivity |].
  destruct (String.eqb_spec k key) as [-> | Hk]; cbn.
  - destruct (String.eqb_spec key other); [contradiction | exact IH].
  - destruct (k =? other)%string; [reflexivity | exact IH].
Qed.

(** X19. What [setCachedData] stored, [getCachedData] returns for the five
    minutes of [CACHE_TTL], the last millisecond included, and leaves the
    cache as it is.  After that it returns null and drops the entry, so that
    the key stays absent at any later reading.  Storing under one key changes
    nothing for another key. *)
Theorem cache_entry_lives_five_minutes {T} (storedAt readAt : Z) (key : string)
  (value : T) (cache : JsMap (BlogCache.CacheEntry T)) :
  let stored := BlogCache.setCachedData storedAt key value cache in
  (readAt - storedAt <= 300000 ->
   BlogCache.getCachedData readAt key stored = (Some value, stored))
  /\ (300000 < readAt - storedAt ->
      fst (BlogCache.getCachedData readAt key stored) = None
      /\ forall later,
          fst (BlogCache.getCachedData later key
                 (snd (BlogCache.getCachedData readAt key stored))) = None)
  /\ (forall other,
         key <> other ->
         fst (BlogCache.getCachedData readAt other stored)
         = fst (BlogCache.getCachedData readAt other cache)).
Proof.
  cbv zeta. unfold BlogCache.getCachedData, BlogCache.setCachedData.
  split; [| split].
  - intros Hfresh. rewrite mapGet_mapSet_same; cbn.
    destruct (Z.gtb_spec (readAt - storedAt) 300000) as [Hgt | _];
      [lia | reflexivity].
  - intros Hstale. rewrite mapGet_mapSet_same; cbn.
    destruct (Z.gtb_spec (readAt - storedAt) 300000) as [_ | Hle]; [| lia].
    split; [reflexivity |].
    intros later. cbn. rewrite mapGet_mapDelete_same. reflexivity.
  - intros other Hdiff. rewrite (mapGet_mapSet_other _ _ _ _ Hdiff).
    destruct (mapGet cache other) as [entry |]; [| reflexivity].
    destruct (readAt - BlogCache.timestamp entry >? BlogCache.CACHE_TTL); reflexivity.
Qed.

Lemma cache_entry_lives_five_minutes_witness :
  BlogCache.getCachedData 300000 "GET_CATEGORIES_{}"
    (BlogCache.setCachedData 0 "GET_CATEGORIES_{}" 7 [])
  = (Some 7, BlogCache.setCachedData 0 "GET_CATEGORIES_{}" 7 [])
  /\ fst (BlogCache.getCachedData 300001 "GET_CATEGORIES_{}"
            (BlogCache.setCachedData 0 "GET_CATEGORIES_{}" 7 [])) = None.
Proof.
  destruct (cache_entry_lives_five_minutes 0 300000 "GET_CATEGORIES_{}" 7 [])
    as (Hfresh & _ & _).
  destruct (cache_entry_lives_five_minutes 0 300001 "GET_CATEGORIES_{}" 7 [])
    as (_ & Hstale & _).
  split.
  - apply Hfresh. lia.
  - apply Hstale. lia.
Defined.

(** ** Blog posts: language fallback *)

Lemma jsSlice_from_zero {A} (l : list A) (n : Z) :
  0 <= n -> jsSlice l 0 n = firstn (Z.to_nat n) l.
Proof.
  intros Hn. unfold jsSlice, sliceIndex.
  destruct (Z.ltb_spec 0 0) as [Habs | _]; [lia |].
  destruct (Z.ltb_spec n 0) as [Habs | _]; [lia |].
  rewrite (Z.min_l 0) by lia. cbn [Z.to_nat skipn]. rewrite Z.sub_0_r.
  destruct (Z.le_ge_cases n (Z.of_nat (List.length l))) as [Hle | Hge].
  - rewrite (Z.min_l n) by lia. reflexivity.
  - rewrite (Z.min_r n) by lia. rewrite Nat2Z.id.
    rewrite firstn_all. symmetry. apply firstn_all2. lia.
Qed.

(** Keeping some of the posts keeps their identifiers distinct. *)
Lemma kept_ids_distinct {Post Id : Type} (idOf : Post -> Id) (keep : Post -> bool) :
  forall posts : list Post,
    NoDup (map idOf posts) -> NoDup (map idOf (filter keep posts)).
Proof.
  intros posts.
  induction posts as [| post rest IH]; cbn; intros Hdistinct; [constructor |].
  apply NoDup_cons_iff in Hdistinct as [Hfresh Hrest].
  destruct (keep post); cbn; [| exact (IH Hrest)].
  apply NoDup_cons_iff. split; [| exact (IH Hrest)].
  intros Hseen. apply Hfresh.
  apply in_map_iff in Hseen as (other & Hid & Hkept).
  apply in_map_iff. exists other.
  apply filter_In in Hkept. tauto.
Qed.

Lemma firstn_In {A} (n : nat) (l : list A) (x : A) : In x (firstn n l) -> In x l.
Proof.
  revert l. induction n as [| n IH]; intros l Hin; cbn in Hin; [contradiction |].
  destruct l as [| a rest]; [contradiction |].
  destruct Hin as [-> | Hin]; [left; reflexivity | right; apply IH, Hin].
Qed.

Lemma NoDup_firstn {A} (n : nat) (l : list A) : NoDup l -> NoDup (firstn n l).
Proof.
  revert l. induction n as [| n IH]; intros l Hnd; cbn; [constructor |].
  destruct l as [| a rest]; [constructor |].
  inversion Hnd as [| x xs Hnotin Hrest]; subst.
  constructor; [| apply IH, Hrest].
  intros Hin. apply Hnotin. exact (firstn_In _ _ _ Hin).
Qed.

Section FallbackProperties.
Context `{Runtime}.
Variable BlogPost : Type.
Variable postId : BlogPost -> string.
Variable languageCode : BlogPost -> option string.


(** X20. Called without a limit, or with a limit of 0,
    [filterPostsWithFallback] returns the posts of the requested language,
    in their order, and nothing else: the Spanish fallback is added only
    under a limit.  [getBlogPosts] calls it without one, so the posts it
    keeps for its pages are the posts of the requested language (of Spanish
    when none is requested) and no other. *)
Theorem no_limit_no_fallback (posts : list BlogPost) (locale : string) :
  Blog.filterPostsWithFallback BlogPost postId languageCode posts locale None
  = Blog.postsInLanguage BlogPost languageCode posts locale
  /\ Blog.filterPostsWithFallback BlogPost postId languageCode posts locale (Some 0)
     = Blog.postsInLanguage BlogPost languageCode posts locale
  /\ (forall post,
         In post (Blog.filterPostsWithFallback BlogPost postId languageCode
                    posts locale None) ->
         languageCode post = Some (String_toUpperCase locale))
  /\ ((forall post, In post posts ->
                    languageCode post <> Some (String_toUpperCase locale)) ->
      Blog.filterPostsWithFallback BlogPost postId languageCode posts locale None = [])
  /\ (forall language,
         Blog.allFilteredPostsOf BlogPost postId languageCode posts language
         = Blog.postsInLanguage BlogPost languageCode posts
             (Blog.requestedLanguageOf language))
  /\ (forall language post,
         In post (Blog.allFilteredPostsOf BlogPost postId languageCode posts language) ->
         languageCode post
         = Some (String_toUpperCase (Blog.requestedLanguageOf language)))
  /\ Blog.requestedLanguageOf None = "ES".
Proof.
  assert (Hlanguage : forall code post,
             In post (filter (fun p => Blog.codeIs BlogPost languageCode p code) posts) ->
             languageCode post = Some code).
  { intros code post Hin. apply filter_In in Hin as [_ Hcode].
    unfold Blog.codeIs in Hcode.
    destruct (languageCode post) as [c |]; [| discriminate].
    apply String.eqb_eq in Hcode. subst. reflexivity. }
  unfold Blog.allFilteredPostsOf, Blog.filterPostsWithFallback,
    Blog.postsInLanguage; cbn.
  split; [reflexivity |]. split; [reflexivity |].
  split; [intros post Hin; exact (Hlanguage _ post Hin) |].
  split; [| split; [reflexivity |
                    split; [intros language post Hin; exact (Hlanguage _ post Hin)
                           | reflexivity]]].
  - intros Hnone. clear Hlanguage.
    induction posts as [| post rest IH]; cbn; [reflexivity |].
    unfold Blog.codeIs at 1.
    destruct (languageCode post) as [c |] eqn:Hc.
    + destruct (String.eqb_spec c (String_toUpperCase locale)) as [-> | _].
      * exfalso. apply (Hnone post); [left; reflexivity | exact Hc].
      * apply IH. intros p Hp. apply Hnone. right. exact Hp.
    + apply IH. intros p Hp. apply Hnone. right. exact Hp.
Qed.

(** X21. Under a positive limit, [filterPostsWithFallback] returns at most
    that many posts, all of them among the posts given and each in the
    requested language or in Spanish; the posts of the requested language
    come first, and when they reach the limit no Spanish post is added.  When
    the posts given have distinct identifiers, so have the posts returned. *)
Theorem fallback_within_limit (posts : list BlogPost) (locale : string) (limit : Z)
  (Hlimit : 0 < limit) :
  let result :=
    Blog.filterPostsWithFallback BlogPost postId languageCode posts locale (Some limit) in
  Z.of_nat (List.length result) <= limit
  /\ (forall post, In post result ->
        In post posts
        /\ (languageCode post = Some (String_toUpperCase locale)
            \/ languageCode post = Some "ES"))
  /\ (exists fallback,
         result
         = firstn (Z.to_nat limit)
             (Blog.postsInLanguage BlogPost languageCode posts locale ++ fallback)
         /\ (forall post, In post fallback -> languageCode post = Some "ES")
         /\ (limit <= Z.of_nat (List.length (Blog.postsInLanguage BlogPost languageCode posts locale))
             -> fallback = []))
  /\ (NoDup (map postId posts) -> NoDup (map postId result)).
Proof.
  cbv zeta. unfold Blog.filterPostsWithFallback. cbn [Blog.limitGiven].
  destruct (Z.eqb_spec limit 0) as [Hzero | _]; [lia |].
  fold (Blog.postsInLanguage BlogPost languageCode posts locale).
  set (fallbackPosts :=
         filter (fun post =>
                   Blog.codeIs BlogPost languageCode post "ES"
                   && negb (existsb (fun p => (postId p =? postId post)%string)
                              (Blog.postsInLanguage BlogPost languageCode posts locale)))
           posts).
  assert (Hrequested : forall post,
            In post (Blog.postsInLanguage BlogPost languageCode posts locale) ->
            In post posts /\ languageCode post = Some (String_toUpperCase locale)).
  { intros post Hin. apply filter_In in Hin as [Hin Hcode]. split; [exact Hin |].
    unfold Blog.codeIs in Hcode.
    destruct (languageCode post) as [c |]; [| discriminate].
    apply String.eqb_eq in Hcode. subst. reflexivity. }
  assert (Hfallback : forall post, In post fallbackPosts ->
            In post posts /\ languageCode post = Some "ES"
            /\ ~ In (postId post)
                 (map postId (Blog.postsInLanguage BlogPost languageCode posts locale))).
  { intros post Hin. apply filter_In in Hin as [Hin Hcond].
    apply andb_true_iff in Hcond as [Hcode Hnew].
    split; [exact Hin |]. split.
    - unfold Blog.codeIs in Hcode.
      destruct (languageCode post) as [c |]; [| discriminate].
      apply String.eqb_eq in Hcode. subst. reflexivity.
    - intros Hdup. apply in_map_iff in Hdup as (p & Hid & Hp).
      apply negb_true_iff in Hnew.
      assert (Hex : existsb (fun q => (postId q =? postId post)%string)
                      (Blog.postsInLanguage BlogPost languageCode posts locale) = true).
      { apply existsb_exists. exists p. split; [exact Hp |].
        apply String.eqb_eq. exact Hid. }
      congruence. }
  destruct (Z.geb_spec
              (Z.of_nat (List.length (Blog.postsInLanguage BlogPost languageCode posts locale)))
              limit)
    as [Henough | Hshort];
    rewrite jsSlice_from_zero by lia.
  - split; [rewrite length_firstn; lia |].
    split.
    + intros post Hin. apply firstn_In in Hin.
      destruct (Hrequested post Hin) as [Hposts Hcode]. auto.
    + split.
      * exists []. rewrite app_nil_r.
        split; [reflexivity |]. split; [intros post [] | reflexivity].
      * intros Hnd. rewrite <- firstn_map. apply NoDup_firstn.
        apply kept_ids_distinct, Hnd.
  - split; [rewrite length_firstn; lia |].
    split.
    + intros post Hin. apply firstn_In in Hin. apply in_app_or in Hin as [Hin | Hin].
      * destruct (Hrequested post Hin) as [Hposts Hcode]. auto.
      * destruct (Hfallback post Hin) as (Hposts & Hcode & _). auto.
    + split.
      * exists fallbackPosts. split; [reflexivity |]. split.
        -- intros post Hin. destruct (Hfallback post Hin) as (_ & Hcode & _). exact Hcode.
        -- intros Habs. lia.
      * intros Hnd. rewrite <- firstn_map. apply NoDup_firstn.
        rewrite map_app. apply NoDup_app.
        -- apply kept_ids_distinct, Hnd.
        -- apply kept_ids_distinct, Hnd.
        -- intros id Hin1 Hin2.
           apply in_map_iff in Hin2 as (post & <- & Hpost).
           destruct (Hfallback post Hpost) as (_ & _ & Hnew). contradiction.
Qed.

End FallbackProperties.

Lemma fallback_within_limit_witness :
  map fst
    (@Blog.filterPostsWithFallback Engine.runtime _ samplePostId samplePostLanguage
       samplePosts "ca" (Some 3))
  = ["1"; "3"; "2"]
  /\ map fst
       (@Blog.filterPostsWithFallback Engine.runtime _ samplePostId samplePostLanguage
          samplePosts "ca" None)
     = ["1"; "3"].
Proof.
  destruct (@fallback_within_limit Engine.runtime _ samplePostId samplePostLanguage
              samplePosts "ca" 3 eq_refl) as (Hlength & _).
  split; reflexivity.
Defined.

(** ** Blog posts: pages *)

Lemma jsSlice_window {A} (l : list A) (o p : Z) :
  0 <= o -> 0 <= p ->
  jsSlice l o (o + p) = firstn (Z.to_nat p) (skipn (Z.to_nat o) l).
Proof.
  intros Ho Hp. unfold jsSlice, sliceIndex.
  destruct (Z.ltb_spec o 0) as [Habs | _]; [lia |].
  destruct (Z.ltb_spec (o + p) 0) as [Habs | _]; [lia |].
  destruct (Z.le_gt_cases o (Z.of_nat (List.length l))) as [Hin | Hout].
  - rewrite (Z.min_l o) by lia.
    destruct (Z.le_gt_cases (o + p) (Z.of_nat (List.length l))) as [Hfull | Hpart].
    + rewrite (Z.min_l (o + p)) by lia. f_equal. f_equal. lia.
    + rewrite (Z.min_r (o + p)) by lia.
      rewrite !firstn_all2; [reflexivity | |]; rewrite length_skipn; lia.
  - rewrite (Z.min_r o) by lia. rewrite (Z.min_r (o + p)) by lia.
    rewrite Z.sub_diag. cbn [Z.to_nat firstn].
    rewrite (skipn_all2 l) by lia. rewrite firstn_nil. reflexivity.
Qed.

Section PageProperties.
Variable BlogPost : Type.
Variable parseInt10 : string -> option Z.
Variable numberToString : option Z -> string.

(** X22. A page of [getBlogPosts] at a cursor that reads as an offset [o]
    that is not negative, with [p] posts per page, holds the [p] posts after
    the first [o], or what is left of them.  It reports a next page exactly
    when posts are left after it; then it is full and its end cursor is the
    text of [o + p], so that, when that text reads back as [o + p], the page
    asked for with it starts where this one ended.  Without a next page the
    end cursor is null and the page holds all that was left. *)
Theorem page_follows_cursor (allFilteredPosts : list BlogPost)
  (variables : Blog.PageVariables) (o p : Z)
  (Hoffset : Blog.offsetOf parseInt10 variables = Some o)
  (Hperpage : Blog.postsPerPageOf variables = p)
  (Ho : 0 <= o)
  (Hp : 0 < p) :
  let page := Blog.pageOf BlogPost parseInt10 numberToString allFilteredPosts variables in
  let rest := skipn (Z.to_nat o) allFilteredPosts in
  Blog.nodes BlogPost page = firstn (Z.to_nat p) rest
  /\ (Blog.hasNextPage (Blog.pageInfo BlogPost page) = true
      <-> p < Z.of_nat (List.length rest))
  /\ (Blog.hasPreviousPage (Blog.pageInfo BlogPost page) = true <-> 0 < o)
  /\ (Blog.hasNextPage (Blog.pageInfo BlogPost page) = true ->
      Z.of_nat (List.length (Blog.nodes BlogPost page)) = p
      /\ Blog.endCursor (Blog.pageInfo BlogPost page)
         = Some (numberToString (Some (o + p)))
      /\ (numberToString (Some (o + p)) <> "" ->
          parseInt10 (numberToString (Some (o + p))) = Some (o + p) ->
          Blog.nodes BlogPost
            (Blog.pageOf BlogPost parseInt10 numberToString allFilteredPosts
               {| Blog.first := Blog.first variables;
                  Blog.after := Blog.endCursor (Blog.pageInfo BlogPost page) |})
          = firstn (Z.to_nat p) (skipn (Z.to_nat p) rest)))
  /\ (Blog.hasNextPage (Blog.pageInfo BlogPost page) = false ->
      Blog.endCursor (Blog.pageInfo BlogPost page) = None
      /\ Blog.nodes BlogPost page = rest).
Proof.
  cbv zeta. unfold Blog.pageOf. rewrite Hoffset, Hperpage. cbn.
  assert (Hrest : Z.of_nat (List.length (skipn (Z.to_nat o) allFilteredPosts))
                  = Z.max 0 (Z.of_nat (List.length allFilteredPosts) - o))
    by (rewrite length_skipn; lia).
  rewrite (jsSlice_window allFilteredPosts o p) by lia.
  split; [reflexivity |].
  split; [rewrite Z.ltb_lt; lia |].
  split; [rewrite Z.gtb_ltb, Z.ltb_lt; reflexivity |].
  split.
  - intros Hnext.
    rewrite Hnext. apply Z.ltb_lt in Hnext.
    split; [rewrite length_firstn; lia |].
    split; [reflexivity |].
    intros Hcursor Hread.
    unfold Blog.offsetOf, Blog.postsPerPageOf; cbn.
    destruct (String.eqb_spec (numberToString (Some (o + p))) "") as [Hempty | _];
      [contradiction |].
    rewrite Hread.
    change (match Blog.first variables with
            | Some n => if n =? 0 then 9 else n
            | None => 9
            end) with (Blog.postsPerPageOf variables).
    rewrite Hperpage.
    rewrite (jsSlice_window allFilteredPosts (o + p) p) by lia.
    rewrite skipn_skipn. f_equal. f_equal. lia.
  - intros Hlast. rewrite Hlast. split; [reflexivity |].
    apply Z.ltb_ge in Hlast.
    apply firstn_all2. lia.
Qed.

End PageProperties.

Lemma page_follows_cursor_witness :
  let firstPage :=
    Blog.pageOf _ Numbers.parseInt10 Numbers.toString samplePosts
      {| Blog.first := Some 4; Blog.after := None |} in
  map fst (Blog.nodes _ firstPage) = ["1"; "2"; "3"; "4"]
  /\ Blog.endCursor (Blog.pageInfo _ firstPage) = Some "4"
  /\ map fst
       (Blog.nodes _
          (Blog.pageOf _ Numbers.parseInt10 Numbers.toString samplePosts
             {| Blog.first := Some 4;
                Blog.after := Blog.endCursor (Blog.pageInfo _ firstPage) |}))
     = ["5"; "6"].
Proof.
  cbv zeta.
  destruct (page_follows_cursor _ Numbers.parseInt10 Numbers.toString samplePosts
              {| Blog.first := Some 4; Blog.after := None |} 0 4
              eq_refl eq_refl) as (Hnodes & _ & _ & Hnext & _).
  - discriminate.
  - reflexivity.
  - destruct (Hnext eq_refl) as (_ & Hcursor & Hfollow).
    split; [rewrite Hnodes; reflexivity |].
    split; [exact Hcursor |].
    assert (Hwritten : Numbers.toString (Some (0 + 4)) <> "")
      by (vm_compute; discriminate).
    specialize (Hfollow Hwritten eq_refl).
    cbn [Blog.first] in Hfollow. rewrite Hfollow. reflexivity.
Defined.

(** ** Blog text: tags and excerpts *)

Lemma containsClose_removeTagsFrom (inTag : bool) (s : string) :
  Text.containsClose (Text.removeTagsFrom inTag s) = true -> Text.containsClose s = true.
Proof.
  revert inTag. induction s as [| c r IH]; intros inTag; cbn; [exact (fun h => h) |].
  destruct inTag.
  - destruct (Text.isClose c); [reflexivity |]. cbn. apply IH.
  - destruct (Text.isOpen c && Text.containsClose r) eqn:Hopen.
    + intros Hin. apply IH in Hin. rewrite Hin. apply orb_true_r.
    + cbn. destruct (Text.isClose c); [reflexivity |]. cbn. apply IH.
Qed.

Lemma hasTag_removeTagsFrom (inTag : bool) (s : string) :
  Text.hasTag (Text.removeTagsFrom inTag s) = false.
Proof.
  revert inTag. induction s as [| c r IH]; intros inTag; cbn; [reflexivity |].
  destruct inTag.
  - destruct (Text.isClose c); apply IH.
  - destruct (Text.isOpen c && Text.containsClose r) eqn:Hopen; [apply IH |].
    cbn. rewrite IH, orb_false_r.
    destruct (Text.isOpen c); [| reflexivity]. cbn in Hopen |- *.
    destruct (Text.containsClose (Text.removeTagsFrom false r)) eqn:Hin; [| reflexivity].
    apply containsClose_removeTagsFrom in Hin. congruence.
Qed.

Lemma removeTags_without_tag (s : string) :
  Text.hasTag s = false -> Text.removeTags s = s.
Proof.
  unfold Text.removeTags.
  induction s as [| c r IH]; cbn; [reflexivity |].
  intros Hnone. apply orb_false_iff in Hnone as [Hopen Hrest].
  rewrite Hopen, (IH Hrest). reflexivity.
Qed.

Lemma hasTag_trimStart (s : string) :
  Text.hasTag s = false -> Text.hasTag (Engine.trimStart s) = false.
Proof.
  induction s as [| c r IH]; cbn; [reflexivity |].
  intros Hnone.
  destruct (Engine.isWhiteSpace c); [| exact Hnone].
  apply orb_false_iff in Hnone as [_ Hrest]. apply IH, Hrest.
Qed.

Lemma containsClose_trimEnd (s : string) :
  Text.containsClose (Engine.trimEnd s) = true -> Text.containsClose s = true.
Proof.
  induction s as [| c r IH]; cbn; [exact (fun h => h) |].
  destruct (Engine.trimEnd r) as [| a r'] eqn:Hend.
  - destruct (Engine.isWhiteSpace c); cbn; [discriminate |].
    rewrite orb_false_r. intros ->. reflexivity.
  - cbn [Text.containsClose]. intros Hin.
    apply orb_true_iff in Hin as [Hc | Hrest]; [rewrite Hc; reflexivity |].
    rewrite (IH Hrest). apply orb_true_r.
Qed.

Lemma hasTag_trimEnd (s : string) :
  Text.hasTag s = false -> Text.hasTag (Engine.trimEnd s) = false.
Proof.
  induction s as [| c r IH]; cbn; [reflexivity |].
  intros Hnone. apply orb_false_iff in Hnone as [Hopen Hrest].
  specialize (IH Hrest).
  pose proof (containsClose_trimEnd r) as Hclose.
  destruct (Engine.trimEnd r) as [| a r'] eqn:Hend.
  - destruct (Engine.isWhiteSpace c); cbn; [reflexivity |].
    rewrite andb_false_r. reflexivity.
  - change (Text.hasTag (String c (String a r')))
      with ((Text.isOpen c && Text.containsClose (String a r'))
            || Text.hasTag (String a r')).
    rewrite IH, orb_false_r.
    destruct (Text.isOpen c); [| reflexivity]. cbn [andb] in Hopen |- *.
    destruct (Text.containsClose (String a r')) eqn:Hin; [| reflexivity].
    rewrite (Hclose eq_refl) in Hopen. discriminate Hopen.
Qed.

Lemma hasTag_trim (s : string) :
  Text.hasTag s = false -> Text.hasTag (Engine.trim s) = false.
Proof.
  intros Hnone. unfold Engine.trim. apply hasTag_trimEnd, hasTag_trimStart, Hnone.
Qed.

(** X23. On ASCII text, what [stripHtml] returns holds no tag: nowhere in it
    does a [<] have a [>] after it.  Text without a tag is only trimmed, and
    stripping twice is stripping once.  What is left of nested markup can
    still hold a lone [>]. *)
Theorem stripHtml_leaves_no_tag (html : string) :
  Text.hasTag (@Text.stripHtml Engine.runtime html) = false
  /\ (Text.hasTag html = false -> @Text.stripHtml Engine.runtime html = Engine.trim html)
  /\ @Text.stripHtml Engine.runtime (@Text.stripHtml Engine.runtime html)
     = @Text.stripHtml Engine.runtime html
  /\ @Text.stripHtml Engine.runtime nestedMarkup = "ipt>alert(1)".
Proof.
  unfold Text.stripHtml; cbn [String_trim Engine.runtime].
  assert (Hclean : Text.hasTag (Engine.trim (Text.removeTags html)) = false)
    by (apply hasTag_trim, hasTag_removeTagsFrom).
  split; [exact Hclean |].
  split; [intros Hnone; rewrite (removeTags_without_tag html Hnone); reflexivity |].
  split; [| reflexivity].
  rewrite (removeTags_without_tag _ Hclean). apply trim_idempotent.
Qed.

Lemma takeChars_length (n : nat) (s : string) :
  (String.length (Text.takeChars n s) <= n)%nat.
Proof.
  revert s. induction n as [| n IH]; intros s; cbn; [lia |].
  destruct s as [| c r]; cbn; [lia |]. specialize (IH r). lia.
Qed.

Lemma trimStart_length (s : string) :
  (String.length (Engine.trimStart s) <= String.length s)%nat.
Proof.
  induction s as [| c r IH]; cbn; [lia |].
  destruct (Engine.isWhiteSpace c); cbn; lia.
Qed.

Lemma trimEnd_length (s : string) :
  (String.length (Engine.trimEnd s) <= String.length s)%nat.
Proof.
  induction s as [| c r IH]; cbn; [lia |].
  destruct (Engine.trimEnd r) as [| a r']; cbn in *.
  - destruct (Engine.isWhiteSpace c); cbn; lia.
  - lia.
Qed.

Lemma trim_length (s : string) :
  (String.length (Engine.trim s) <= String.length s)%nat.
Proof.
  unfold Engine.trim.
  pose proof (trimEnd_length (Engine.trimStart s)). pose proof (trimStart_length s). lia.
Qed.

Lemma append_length (s t : string) :
  String.length (s ++ t) = (String.length s + String.length t)%nat.
Proof.
  induction s as [| c r IH]; cbn; [reflexivity | rewrite IH; reflexivity].
Qed.

(** X24. On ASCII text and for a maximum that is not negative,
    [truncateText] returns at most the maximum plus three characters; text
    whose stripped form fits is returned stripped and whole, and longer text
    is cut, trimmed and closed with three dots. *)
Theorem truncateText_bounded (text : string) (maxLength : Z)
  (Hmax : 0 <= maxLength) :
  let stripped := @Text.stripHtml Engine.runtime text in
  let result := @Text.truncateText Engine.runtime text maxLength in
  Z.of_nat (String.length result) <= maxLength + 3
  /\ (Z.of_nat (String.length stripped) <= maxLength -> result = stripped)
  /\ (maxLength < Z.of_nat (String.length stripped) ->
      exists kept,
        result = kept ++ "..."
        /\ kept = Engine.trim (Text.takeChars (Z.to_nat maxLength) stripped)
        /\ Z.of_nat (String.length kept) <= maxLength).
Proof.
  cbv zeta. unfold Text.truncateText; cbn [String_trim Engine.runtime].
  pose proof (trim_length
                (Text.takeChars (Z.to_nat maxLength) (@Text.stripHtml Engine.runtime text)))
    as Htrim.
  pose proof (takeChars_length (Z.to_nat maxLength) (@Text.stripHtml Engine.runtime text))
    as Htake.
  destruct (Z.leb_spec (Z.of_nat (String.length (@Text.stripHtml Engine.runtime text)))
              maxLength) as [Hfits | Hlong].
  - split; [lia |]. split; [reflexivity | lia].
  - split; [rewrite append_length; change (String.length "...") with 3%nat; lia |].
    split; [lia |].
    intros _. eexists. split; [reflexivity |]. split; [reflexivity | lia].
Qed.

Lemma truncateText_bounded_witness :
  @Text.truncateText Engine.runtime "<p>Sauna  and  rest</p>" 7 = "Sauna..."
  /\ Z.of_nat (String.length (@Text.truncateText Engine.runtime "<p>Sauna  and  rest</p>" 7))
     <= 7 + 3.
Proof.
  split; [reflexivity |].
  apply (truncateText_bounded "<p>Sauna  and  rest</p>" 7). discriminate.
Defined.

(** ** Sessions by type *)

Lemma mapSet_keys {V} (m : JsMap V) (key : string) (v old : V) :
  mapGet m key = Some old -> map fst (mapSet m key v) = map fst m.
Proof.
  induction m as [| [k w] rest IH]; cbn; [discriminate |].
  destruct (k =? key)%string; cbn; [reflexivity |].
  intros Hget. rewrite (IH Hget). reflexivity.
Qed.

Lemma mapGet_present {V} (m : JsMap V) (key : string) :
  In key (map fst m) -> exists v, mapGet m key = Some v.
Proof.
  induction m as [| [k w] rest IH]; cbn; [contradiction |].
  destruct (String.eqb_spec k key) as [-> | Hk]; [eexists; reflexivity |].
  intros [Habs | Hin]; [contradiction | apply IH, Hin].
Qed.

Lemma mapGet_absent {V} (m : JsMap V) (key : string) :
  ~ In key (map fst m) -> mapGet m key = None.
Proof.
  induction m as [| [k w] rest IH]; cbn; [reflexivity |].
  intros Hnot.
  destruct (String.eqb_spec k key) as [-> | Hk]; [exfalso; apply Hnot; left; reflexivity |].
  apply IH. intros Hin. apply Hnot. right. exact Hin.
Qed.

Section GroupingProperties.
Variable PublicSessionData : Type.
Variable sessionType : PublicSessionData -> option string.
Variable toLowerCase : string -> string.

Lemma groupOf_in_displayOrder (session : PublicSessionData) :
  In (Sessions.groupOf PublicSessionData sessionType toLowerCase session)
     Sessions.displayOrder.
Proof.
  unfold Sessions.groupOf.
  destruct (existsb _ Sessions.displayOrder) eqn:Hex.
  - apply existsb_exists in Hex as (k & Hin & Heq).
    apply String.eqb_eq in Heq. rewrite Heq. exact Hin.
  - left. reflexivity.
Qed.

(** One turn of the loop puts the session at the end of its group and
    leaves the keys and the other groups alone. *)
Lemma addSession_spec (groups : JsMap (list PublicSessionData))
  (session : PublicSessionData) :
  map fst groups = Sessions.displayOrder ->
  map fst (Sessions.addSession PublicSessionData sessionType toLowerCase groups session)
  = Sessions.displayOrder
  /\ forall key,
      mapGet (Sessions.addSession PublicSessionData sessionType toLowerCase groups session)
        key
      = option_map
          (fun group =>
             if (Sessions.groupOf PublicSessionData sessionType toLowerCase session
                 =? key)%string
             then (group ++ [session])%list else group)
          (mapGet groups key).
Proof.
  intros Hkeys.
  unfold Sessions.addSession, Sessions.groupOf.
  set (type := Sessions.typeOf PublicSessionData sessionType toLowerCase session).
  destruct (existsb (String.eqb type) Sessions.displayOrder) eqn:Hex.
  - assert (Hin : In type (map fst groups)).
    { rewrite Hkeys. apply existsb_exists in Hex as (k & Hin & Heq).
      apply String.eqb_eq in Heq. rewrite Heq. exact Hin. }
    destruct (mapGet_present groups type Hin) as [group Hgroup].
    rewrite Hgroup. split.
    + rewrite (mapSet_keys groups type _ group Hgroup). exact Hkeys.
    + intros key. destruct (String.eqb_spec type key) as [<- | Hdiff].
      * rewrite mapGet_mapSet_same, Hgroup. reflexivity.
      * rewrite (mapGet_mapSet_other _ _ _ _ Hdiff).
        destruct (mapGet groups key); reflexivity.
  - assert (Hout : ~ In type (map fst groups)).
    { rewrite Hkeys. intros Hin.
      assert (Hyes : existsb (String.eqb type) Sessions.displayOrder = true).
      { apply existsb_exists. exists type. split; [exact Hin | apply String.eqb_refl]. }
      congruence. }
    rewrite (mapGet_absent groups type Hout).
    assert (Hsingle : In "single" (map fst groups))
      by (rewrite Hkeys; left; reflexivity).
    destruct (mapGet_present groups "single" Hsingle) as [group Hgroup].
    rewrite Hgroup. split.
    + rewrite (mapSet_keys groups "single" _ group Hgroup). exact Hkeys.
    + intros key. destruct (String.eqb_spec "single" key) as [<- | Hdiff].
      * rewrite mapGet_mapSet_same, Hgroup. reflexivity.
      * rewrite (mapGet_mapSet_other _ _ _ _ Hdiff).
        destruct (mapGet groups key); reflexivity.
Qed.

Lemma fold_addSession (sessions : list PublicSessionData) :
  forall groups,
    map fst groups = Sessions.displayOrder ->
    map fst (fold_left (Sessions.addSession PublicSessionData sessionType toLowerCase)
               sessions groups)
    = Sessions.displayOrder
    /\ forall key,
        mapGet (fold_left (Sessions.addSession PublicSessionData sessionType toLowerCase)
                  sessions groups) key
        = option_map
            (fun group =>
               (group
                ++ filter (fun s =>
                             (Sessions.groupOf PublicSessionData sessionType toLowerCase s
                              =? key)%string)
                     sessions)%list)
            (mapGet groups key).
Proof.
  induction sessions as [| session rest IH]; intros groups Hkeys; cbn.
  - split; [exact Hkeys |]. intros key.
    destruct (mapGet groups key); cbn; [rewrite app_nil_r |]; reflexivity.
  - destruct (addSession_spec groups session Hkeys) as [Hkeys' Hget].
    destruct (IH _ Hkeys') as [Hfinal Hall].
    split; [exact Hfinal |]. intros key.
    rewrite Hall, Hget.
    destruct (mapGet groups key) as [group |]; cbn; [| reflexivity].
    destruct (_ =? key)%string; cbn; [rewrite <- app_assoc |]; reflexivity.
Qed.

(** X25. [groupSessionsByType] always returns the five groups, in the
    display order single, pack, voucher, gift, private.  Each group lists, in
    the order they came, exactly the sessions whose lower-cased type is its
    key; a session with no type or with a type outside the five is listed
    under single.  So every session is in one group and one only. *)
Theorem groupSessionsByType_partitions (sessions : list PublicSessionData) :
  let groups :=
    Sessions.groupSessionsByType PublicSessionData sessionType toLowerCase sessions in
  map fst groups = Sessions.displayOrder
  /\ (forall key,
         In key Sessions.displayOrder ->
         mapGet groups key
         = Some (filter (fun s =>
                           (Sessions.groupOf PublicSessionData sessionType toLowerCase s
                            =? key)%string)
                   sessions))
  /\ (forall session,
         In session sessions ->
         exists key group,
           In key Sessions.displayOrder
           /\ mapGet groups key = Some group
           /\ In session group
           /\ forall other group',
               mapGet groups other = Some group' -> In session group' ->
               other = Sessions.groupOf PublicSessionData sessionType toLowerCase session).
Proof.
  cbv zeta. unfold Sessions.groupSessionsByType.
  destruct (fold_addSession sessions
              (fold_left (fun g type => mapSet g type []) Sessions.displayOrder [])
              eq_refl) as [Hkeys Hget].
  assert (Hgroup : forall key,
             In key Sessions.displayOrder ->
             mapGet (fold_left
                       (Sessions.addSession PublicSessionData sessionType toLowerCase)
                       sessions
                       (fold_left (fun g type => mapSet g type [])
                          Sessions.displayOrder [])) key
             = Some (filter (fun s =>
                               (Sessions.groupOf PublicSessionData sessionType toLowerCase s
                                =? key)%string)
                       sessions)).
  { intros key Hin. rewrite Hget.
    destruct Hin as [<- | [<- | [<- | [<- | [<- | []]]]]]; reflexivity. }
  split; [exact Hkeys |]. split; [exact Hgroup |].
  intros session Hin.
  pose proof (groupOf_in_displayOrder session) as Hown.
  eexists. eexists. split; [exact Hown |]. split; [apply Hgroup, Hown |]. split.
  - apply filter_In. split; [exact Hin | apply String.eqb_refl].
  - intros other group' Hother Hmember.
    destruct (in_dec string_dec other Sessions.displayOrder) as [Hknown | Hunknown].
    + rewrite (Hgroup other Hknown) in Hother. injection Hother as <-.
      apply filter_In in Hmember as [_ Heq]. apply String.eqb_eq in Heq.
      symmetry. exact Heq.
    + rewrite mapGet_absent in Hother by (rewrite Hkeys; exact Hunknown).
      discriminate Hother.
Qed.

End GroupingProperties.

Lemma groupSessionsByType_partitions_witness :
  map (fun '(key, group) => (key, map fst group))
    (Sessions.groupSessionsByType _ snd toLowerCaseAscii sampleSessions)
  = [("single", ["b"; "c"; "e"]); ("pack", ["a"; "d"]);
     ("voucher", []); ("gift", []); ("private", [])].
Proof.
  destruct (groupSessionsByType_partitions _ snd toLowerCaseAscii sampleSessions)
    as (Hkeys & Hgroups & _).
  pose proof (Hgroups "pack" ltac:(right; left; reflexivity)) as Hpack.
  reflexivity.
Defined.

(** ** The two versions of the store *)

(** X26. On a percentage discount that is active, the current store computes
    what the first version computed from the same data: the same calculation
    for every price, the same remaining uses, the same percentage and the
    same answer to whether it has expired.  The first version never looks at
    [is_active]. *)
Theorem current_store_agrees_with_first `{Runtime} (now : Z) (price : Q) (st : Store)
  (current : Discount) (legacy : LegacyStore.Discount)
  (Happlied : appliedDiscount st = Some current)
  (Hcarries : carriesLegacy current legacy) :
  getDiscountCalculation price st
  = LegacyStore.getDiscountCalculation price (Some legacy)
  /\ remainingUses st = LegacyStore.remainingUses (Some legacy)
  /\ discountPercentage st = LegacyStore.discountPercentage (Some legacy)
  /\ isDiscountExpired now current = LegacyStore.isDiscountExpired now legacy
  /\ LegacyStore.isDiscountExpired now legacy
     = endInPastb now (Some (LegacyStore.valid_until legacy)).
Proof.
  destruct Hcarries as (Htype & Hamount & Huntil & Hmax & Hused & Hstatus).
  unfold getDiscountCalculation, remainingUses, discountPercentage, isDiscountExpired,
    LegacyStore.getDiscountCalculation, LegacyStore.remainingUses,
    LegacyStore.discountPercentage, LegacyStore.isDiscountExpired.
  rewrite Happlied, Htype, Hamount, Huntil, Hmax, Hused, Hstatus.
  repeat split.
  rewrite <- (date_guard_endInPastb now (Some (LegacyStore.valid_until legacy))).
  destruct (LegacyStore.valid_until legacy =? "")%string; [reflexivity |].
  destruct (Date_parse (LegacyStore.valid_until legacy)); [| reflexivity].
  rewrite Z.gtb_ltb. reflexivity.
Qed.

Lemma current_store_agrees_with_first_witness :
  @isDiscountExpired Engine.runtime newYear2026 summer20
  = @LegacyStore.isDiscountExpired Engine.runtime newYear2026 legacySummer20
  /\ @LegacyStore.isDiscountExpired Engine.runtime newYear2026 legacySummer20 = true
  /\ remainingUses (withDiscount summer20) = Some 90.
Proof.
  destruct (@current_store_agrees_with_first Engine.runtime newYear2026 50
              (withDiscount summer20) summer20 legacySummer20 eq_refl)
    as (_ & Hremaining & _ & Hexpired & _).
  - repeat split.
  - split; [exact Hexpired |]. split; [reflexivity |].
    rewrite Hremaining. reflexivity.
Defined.
